(** * Donation form linter: the validator of [basic.js] and the fixer of
      [DonationFormValidator.java], embedded and verified.

    The JavaScript class [DonationFormValidator] (basic.js) checks form
    markup with regular expressions and substring tests; its Java copy adds
    [fixFormHTML], a list of [String.replaceAll] rewrites.  Markup is text:
    a list of characters (8-bit [ascii] here; the patterns only ever
    compare a character with an ASCII one).  The regular expressions of
    the sources are written as syntax trees and run by a backtracking
    matcher with the priorities of the two regex engines (greedy
    repetition, alternatives from left to right, leftmost match first). *)

From Stdlib Require Import Ascii String List Bool Arith Lia.
Import ListNotations.

(* ================================================================= *)
(** ** Text *)

Module Text.

Definition text := list ascii.

Definition dquote : ascii := "034"%char.
Definition squote : ascii := "'"%char.
Definition newline : ascii := "010"%char.

(** Source literals are written here with an apostrophe wherever the
    source has a double quote, in definitions and in comments alike; no
    literal of the sources contains an apostrophe of its own. *)
Definition unquote (c : ascii) : ascii :=
  if Ascii.eqb c squote then dquote else c.

Definition lit (s : string) : text := map unquote (list_ascii_of_string s).

Fixpoint joinLines (ls : list text) : text :=
  match ls with
  | [] => []
  | [l] => l
  | l :: rest => l ++ newline :: joinLines rest
  end.

(** A multi-line literal, given line by line. *)
Definition unlines (ls : list string) : text := joinLines (map lit ls).

Fixpoint text_eqb (a b : text) : bool :=
  match a, b with
  | [], [] => true
  | x :: a', y :: b' => Ascii.eqb x y && text_eqb a' b'
  | _, _ => false
  end.

(** [s.startsWith(p)] *)
Fixpoint startsWith (s p : text) {struct p} : bool :=
  match p, s with
  | [], _ => true
  | x :: p', y :: s' => Ascii.eqb x y && startsWith s' p'
  | _ :: _, [] => false
  end.

(** [s.includes(p)] (JavaScript), [s.contains(p)] (Java) *)
Fixpoint includes (s p : text) : bool :=
  startsWith s p ||
  match s with
  | [] => false
  | _ :: s' => includes s' p
  end.

Definition firstChar (d : text) : ascii := hd "000"%char d.

(** [arr.includes(x)] on an array of strings *)
Definition arrayIncludes (arr : list text) (x : text) : bool :=
  existsb (text_eqb x) arr.

End Text.
Import Text.

(* ================================================================= *)
(** ** Regular expressions *)

Module Regex.

(** The character classes of the sources' patterns: [[^c]] and [\s]. *)
Inductive cclass :=
| NotChar (c : ascii)
| Space.

Definition isSpace (c : ascii) : bool :=
  let n := nat_of_ascii c in
  (n =? 32) || (n =? 9) || (n =? 10) || (n =? 11) || (n =? 12) || (n =? 13).

Definition inClass (k : cclass) (c : ascii) : bool :=
  match k with
  | NotChar x => negb (Ascii.eqb c x)
  | Space => isSpace c
  end.

(** The fragment of regex syntax the sources use.  Repetition only ever
    applies to a character class there. *)
Inductive regex :=
| Lit (t : text)            (* literal characters *)
| Star (k : cclass)         (* k*  greedy *)
| Plus (k : cclass)         (* k+  greedy *)
| Alt (r1 r2 : regex)       (* r1|r2 *)
| Cat (r1 r2 : regex)       (* r1r2 *)
| Group (r : regex).        (* (r)  capturing *)

Fixpoint ngroups (r : regex) : nat :=
  match r with
  | Lit _ | Star _ | Plus _ => 0
  | Alt r1 r2 | Cat r1 r2 => ngroups r1 + ngroups r2
  | Group r' => S (ngroups r')
  end.

(** A capture is [None] when its group took no part in the match. *)
Definition capture := option text.

(** Patterns whose group 1 takes part in every match: the first group is
    met on the way through a concatenation, not inside an alternative. *)
Fixpoint firstGroupSet (r : regex) : bool :=
  match r with
  | Lit _ | Star _ | Plus _ | Alt _ _ => false
  | Cat r1 r2 =>
      match ngroups r1 with
      | 0 => firstGroupSet r2
      | _ => firstGroupSet r1
      end
  | Group _ => true
  end.

(** The inputs left after [k*], longest repetition first. *)
Fixpoint starRests (k : cclass) (s : text) : list text :=
  match s with
  | c :: s' => if inClass k c then starRests k s' ++ [s] else [s]
  | [] => [[]]
  end.

(** All the ways [r] matches a prefix of [s], in the order a backtracking
    engine tries them; each gives the captures (numbered by opening
    parenthesis) and the input left. *)
Fixpoint matchAt (r : regex) (s : text) : list (list capture * text) :=
  match r with
  | Lit t => if startsWith s t then [([], skipn (length t) s)] else []
  | Star k => map (fun rest => ([], rest)) (starRests k s)
  | Plus k =>
      match s with
      | c :: s' =>
          if inClass k c then map (fun rest => ([], rest)) (starRests k s')
          else []
      | [] => []
      end
  | Alt r1 r2 =>
      map (fun m => (fst m ++ repeat None (ngroups r2), snd m)) (matchAt r1 s)
      ++ map (fun m => (repeat None (ngroups r1) ++ fst m, snd m)) (matchAt r2 s)
  | Cat r1 r2 =>
      flat_map (fun m1 =>
                  map (fun m2 => (fst m1 ++ fst m2, snd m2))
                      (matchAt r2 (snd m1)))
               (matchAt r1 s)
  | Group r' =>
      map (fun m => (Some (firstn (length s - length (snd m)) s) :: fst m,
                     snd m))
          (matchAt r' s)
  end.

(** A successful match: the matched text and its captures. *)
Definition found := (text * list capture)%type.

(** The match the engine reports at the start of [s], if any. *)
Definition matchHere (r : regex) (s : text) : option found :=
  match matchAt r s with
  | (g, rest) :: _ => Some (firstn (length s - length rest) s, g)
  | [] => None
  end.

(** Leftmost match: [s.match(r)] without the [g] flag, [Matcher.find()]
    on a fresh matcher. *)
Fixpoint search (r : regex) (s : text) : option found :=
  match matchHere r s with
  | Some m => Some m
  | None =>
      match s with
      | [] => None
      | _ :: s' => search r s'
      end
  end.

(** Successive matches from left to right, each search resuming where the
    last match ended (one character further after an empty match).
    [skip] counts the characters of [s] still covered by the last match. *)
Fixpoint scan (r : regex) (s : text) (skip : nat) : list found :=
  match s with
  | [] =>
      match skip, matchHere r [] with
      | 0, Some m => [m]
      | _, _ => []
      end
  | _ :: s' =>
      match skip with
      | S n => scan r s' n
      | 0 =>
          match matchHere r s with
          | Some m => m :: scan r s' (length (fst m) - 1)
          | None => scan r s' 0
          end
      end
  end.

(** What the pattern denotes, without priorities. *)
Fixpoint Lang (r : regex) (u : text) : Prop :=
  match r with
  | Lit t => u = t
  | Star k => Forall (fun c => inClass k c = true) u
  | Plus k => u <> [] /\ Forall (fun c => inClass k c = true) u
  | Alt r1 r2 => Lang r1 u \/ Lang r2 u
  | Cat r1 r2 => exists u1 u2, u = u1 ++ u2 /\ Lang r1 u1 /\ Lang r2 u2
  | Group r' => Lang r' u
  end.

End Regex.
Import Regex.

(* ================================================================= *)
(** ** basic.js: class DonationFormValidator *)

Module JS.

(** A call either returns or throws; the only exception these methods can
    raise is the [TypeError] of indexing [null], modelled as [None]. *)
Definition bind {A B} (c : option A) (f : A -> option B) : option B :=
  match c with
  | Some a => f a
  | None => None
  end.

Notation "x <- c ;; k" := (bind c (fun x => k))
  (at level 61, c at next level, right associativity).

(** [arr.map(f)] for a callback that may throw *)
Fixpoint mapM {A B} (f : A -> option B) (arr : list A) : option (list B) :=
  match arr with
  | [] => Some []
  | x :: rest =>
      y <- f x ;;
      ys <- mapM f rest ;;
      Some (y :: ys)
  end.

(** [arr.forEach(body)] where [body] may push onto [errors] or throw *)
Fixpoint forEach {A} (body : A -> list text -> option (list text))
         (arr : list A) (errors : list text) : option (list text) :=
  match arr with
  | [] => Some errors
  | x :: rest =>
      errors' <- body x errors ;;
      forEach body rest errors'
  end.

(** [s.match(r)] with the [g] flag: the matched texts, [null] if none. *)
Definition matchG (r : regex) (s : text) : option (list text) :=
  match scan r s 0 with
  | [] => None
  | ms => Some (map fst ms)
  end.

(** [s.match(r)[1]] without the [g] flag.  Indexing a [null] result
    throws.  The patterns used with it all have one group that takes part
    in every match, so the [undefined] of an idle group never arises (it
    is folded into [None] here). *)
Definition matchGroup1 (r : regex) (s : text) : option text :=
  match search r s with
  | Some (_, Some g :: _) => Some g
  | _ => None
  end.

(** [/<label for='([^']+)'>/g] *)
Definition labelPattern : regex :=
  Cat (Lit (lit "<label for='"))
      (Cat (Group (Plus (NotChar dquote))) (Lit (lit "'>"))).

(** [/<input[^>]+id='([^']+)'/g] *)
Definition inputIdPattern : regex :=
  Cat (Lit (lit "<input"))
      (Cat (Plus (NotChar ">"))
           (Cat (Lit (lit "id='"))
                (Cat (Group (Plus (NotChar dquote))) (Lit (lit "'"))))).

(** [/for='([^']+)'/] *)
Definition forPattern : regex :=
  Cat (Lit (lit "for='"))
      (Cat (Group (Plus (NotChar dquote))) (Lit (lit "'"))).

(** [/id='([^']+)'/] *)
Definition idPattern : regex :=
  Cat (Lit (lit "id='"))
      (Cat (Group (Plus (NotChar dquote))) (Lit (lit "'"))).

(** [/<input[^>]+(type='text'|type='email'|type='number')[^>]*>/g] *)
Definition requiredInputPattern : regex :=
  Cat (Lit (lit "<input"))
      (Cat (Plus (NotChar ">"))
           (Cat (Group (Alt (Lit (lit "type='text'"))
                            (Alt (Lit (lit "type='email'"))
                                 (Lit (lit "type='number'")))))
                (Cat (Star (NotChar ">")) (Lit (lit ">"))))).

(** [/type='([^']+)'/] *)
Definition typePattern : regex :=
  Cat (Lit (lit "type='"))
      (Cat (Group (Plus (NotChar dquote))) (Lit (lit "'"))).

(** The four kinds of diagnostic. *)
Definition voidDiag : text :=
  lit "Found </input> closing tags - input elements are void elements".

Definition labelDiag (id : text) : text :=
  lit "Label with for='" ++ id
  ++ lit "' has no corresponding input with matching id".

Definition requiredDiag (ty : text) : text :=
  lit "Input with type " ++ ty ++ lit " should have required attribute".

Definition emailDiag : text :=
  lit "Email input should have type='email' instead of type='text'".

Definition validateFormStructure (htmlContent : text) : option (list text) :=
  let errors : list text := [] in
  (* Check for </input> closing tags *)
  let errors :=
    if includes htmlContent (lit "</input>") then errors ++ [voidDiag]
    else errors in
  (* Check for proper label-input associations *)
  let labelMatches := matchG labelPattern htmlContent in
  let inputIdMatches := matchG inputIdPattern htmlContent in
  errors <-
    match labelMatches, inputIdMatches with
    | Some lm, Some im =>
        labelIds <- mapM (matchGroup1 forPattern) lm ;;
        inputIds <- mapM (matchGroup1 idPattern) im ;;
        forEach (fun id errs =>
                   if negb (arrayIncludes inputIds id)
                   then Some (errs ++ [labelDiag id])
                   else Some errs)
                labelIds errors
    | _, _ => Some errors
    end ;;
  (* Check for required attributes on text, email, and number inputs *)
  let requiredInputs := matchG requiredInputPattern htmlContent in
  errors <-
    match requiredInputs with
    | Some ri =>
        forEach (fun input errs =>
                   if negb (includes input (lit "required"))
                   then ty <- matchGroup1 typePattern input ;;
                        Some (errs ++ [requiredDiag ty])
                   else Some errs)
                ri errors
    | None => Some errors
    end ;;
  (* Check email input type *)
  let errors :=
    if negb (includes htmlContent (lit "type='email'"))
    then errors ++ [emailDiag]
    else errors in
  Some errors.

Definition generateCorrectedHTML : text :=
  unlines [
    "<!DOCTYPE html>";
    "<html lang='en'>";
    "<head>";
    "  <meta charset='UTF-8'>";
    "  <title>Donation Form</title>";
    "</head>";
    "<body>";
    "  <h1>Donation Form</h1>";
    "  <form>";
    "    <label for='fullName'>Full Name:</label>";
    "    <input type='text' id='fullName' name='name' required>";
    "    ";
    "    <label for='emailAddress'>Email Address:</label>";
    "    <input type='email' id='emailAddress' name='email' required>";
    "    ";
    "    <label for='donationAmount'>Donation Amount ($):</label>";
    "    <input type='number' id='donationAmount' name='amount' required>";
    "    ";
    "    <label for='subscribe'>Subscribe</label>";
    "    <input type='checkbox' id='subscribe' name='newsletter'>";
    "    ";
    "    <input type='submit' value='Send'>";
    "  </form>";
    "</body>";
    "</html>"
  ]%string.

(** The usage example's sample markup. *)
Definition originalHTML : text :=
  unlines [
    "<!DOCTYPE html>";
    "<html lang='en'>";
    "<head>";
    "  <meta charset='UTF-8'>";
    "  <title>Donation Form</title>";
    "</head>";
    "<body>";
    "  <h1>Donation Form</h1>";
    "  <form>";
    "    ";
    "    Full Name:";
    "    <input type='text' name='name'></input>";
    EmptyString;
    "    Email Address:";
    "    <input type='text' name='email'>";
    EmptyString;
    "    Donation Amount ($):";
    "    <input type='number' name='amount'></input>";
    EmptyString;
    "    <input type='checkbox' name='newsletter'></input>";
    "    Subscribe";
    EmptyString;
    "    <input type='submit' value='Send'></input>";
    "  </form>";
    "</body>";
    "</html>"
  ]%string.

(** [/<input[^>]*>/g] *)
Definition inputPattern : regex :=
  Cat (Lit (lit "<input")) (Cat (Star (NotChar ">")) (Lit (lit ">"))).

(** [/<label[^>]*>/g] *)
Definition labelTagPattern : regex :=
  Cat (Lit (lit "<label")) (Cat (Star (NotChar ">")) (Lit (lit ">"))).

(** [/<label for='([^']+)'/g] *)
Definition labelForPattern : regex :=
  Cat (Lit (lit "<label for='"))
      (Cat (Group (Plus (NotChar dquote))) (Lit (lit "'"))).

(** [x || []] on the result of a global match *)
Definition orEmpty (m : option (list text)) : list text :=
  match m with
  | Some l => l
  | None => []
  end.

Definition checkLabelInputAssociation (htmlContent : text) : option bool :=
  let labelForMatches := orEmpty (matchG labelForPattern htmlContent) in
  let inputIdMatches := orEmpty (matchG inputIdPattern htmlContent) in
  labelFors <- mapM (matchGroup1 forPattern) labelForMatches ;;
  inputIds <- mapM (matchGroup1 idPattern) inputIdMatches ;;
  Some (forallb (fun forValue => arrayIncludes inputIds forValue) labelFors).

(** The object returned by [validateAllRequirements]: its properties in
    insertion order. *)
Definition tests := list (string * bool).

(** Only the call of [checkLabelInputAssociation] could throw; the other
    properties are pure, so it does not show that the call is made first
    here. *)
Definition validateAllRequirements (htmlContent : text) : option tests :=
  labelInputAssociation <- checkLabelInputAssociation htmlContent ;;
  Some [
    ("noInputClosingTags"%string, negb (includes htmlContent (lit "</input>")));
    ("fiveInputElements"%string,
       length (orEmpty (matchG inputPattern htmlContent)) =? 5);
    ("fourLabelElements"%string,
       length (orEmpty (matchG labelTagPattern htmlContent)) =? 4);
    ("firstLabelText"%string,
       includes htmlContent (lit "<label for='fullName'>Full Name:</label>"));
    ("firstInputRequired"%string,
       includes htmlContent
         (lit "<input type='text' id='fullName' name='name' required>"));
    ("secondLabelText"%string,
       includes htmlContent
         (lit "<label for='emailAddress'>Email Address:</label>"));
    ("secondInputRequired"%string,
       includes htmlContent
         (lit "<input type='email' id='emailAddress' name='email' required>"));
    ("thirdLabelText"%string,
       includes htmlContent
         (lit "<label for='donationAmount'>Donation Amount ($):</label>"));
    ("thirdInputRequired"%string,
       includes htmlContent
         (lit "<input type='number' id='donationAmount' name='amount' required>"));
    ("fourthLabelText"%string,
       includes htmlContent (lit "<label for='subscribe'>Subscribe</label>"));
    ("labelInputAssociation"%string, labelInputAssociation);
    ("emailInputType"%string, includes htmlContent (lit "type='email'"));
    ("checkboxNotRequired"%string,
       negb (includes htmlContent
               (lit "<input type='checkbox' id='subscribe' name='newsletter' required>")));
    ("submitNotRequired"%string,
       negb (includes htmlContent
               (lit "<input type='submit' value='Send' required>")))
  ].

(** The property names of the checklist, as the object literal lists
    them. *)
Definition ruleNames : list string :=
  [ "noInputClosingTags"; "fiveInputElements"; "fourLabelElements";
    "firstLabelText"; "firstInputRequired"; "secondLabelText";
    "secondInputRequired"; "thirdLabelText"; "thirdInputRequired";
    "fourthLabelText"; "labelInputAssociation"; "emailInputType";
    "checkboxNotRequired"; "submitNotRequired" ]%string.

(** [tests[name]] *)
Fixpoint getRule (name : string) (t : tests) : option bool :=
  match t with
  | [] => None
  | (k, v) :: rest => if String.eqb k name then Some v else getRule name rest
  end.

End JS.
Import JS.

(* ================================================================= *)
(** ** DonationFormValidator.java: fixFormHTML *)

Module Java.

(** The exceptions [Matcher.appendReplacement] can raise. *)
Inductive exn :=
| IllegalArgumentException
| IndexOutOfBoundsException.

Definition result (A : Type) := (exn + A)%type.

Definition bindR {A B} (c : result A) (f : A -> result B) : result B :=
  match c with
  | inr a => f a
  | inl e => inl e
  end.

Notation "x <-- c ;; k" := (bindR c (fun x => k))
  (at level 61, c at next level, right associativity).

(** [\s] of [java.util.regex]: space, tab, line feed, vertical tab, form
    feed, carriage return; the class [Space] above. *)

Definition digitOf (c : ascii) : option nat :=
  let n := nat_of_ascii c in
  if (48 <=? n) && (n <=? 57) then Some (n - 48) else None.

(** After [$d]: further digits extend the group number as long as the
    number stays a group of the pattern.  Returns the group number and how
    many further digits were taken. *)
Fixpoint groupRef (refNum groupCount : nat) (rest : text) : nat * nat :=
  match rest with
  | c :: rest' =>
      match digitOf c with
      | Some d =>
          let newRefNum := refNum * 10 + d in
          if groupCount <? newRefNum then (refNum, 0)
          else let (n, taken) := groupRef newRefNum groupCount rest' in
               (n, S taken)
      | None => (refNum, 0)
      end
  | [] => (refNum, 0)
  end.

(** [group(n)] as the replacement appends it: the whole match for 0,
    nothing for a group that took no part, an exception past the last
    group. *)
Definition groupText (n : nat) (m : found) : result text :=
  match n with
  | 0 => inr (fst m)
  | S i =>
      match nth_error (snd m) i with
      | Some (Some t) => inr t
      | Some None => inr []
      | None => inl IndexOutOfBoundsException
      end
  end.

(** The replacement string as [Matcher.appendReplacement] reads it: a
    backslash makes the next character literal, a dollar sign starts a
    group reference and must be followed by a digit or by a group name in
    braces (the patterns here name no group, so a name always fails).
    [skip] counts characters already consumed by the step before. *)
Fixpoint expand (repl : text) (skip : nat) (m : found) : result text :=
  match repl with
  | [] => inr []
  | c :: rest =>
      match skip with
      | S n => expand rest n m
      | 0 =>
          if Ascii.eqb c "\" then
            match rest with
            | [] => inl IllegalArgumentException
            | e :: _ => tl <-- expand rest 1 m ;; inr (e :: tl)
            end
          else if Ascii.eqb c "$" then
            match rest with
            | [] => inl IllegalArgumentException
            | d :: rest' =>
                if Ascii.eqb d "{" then inl IllegalArgumentException
                else
                  match digitOf d with
                  | None => inl IllegalArgumentException
                  | Some n =>
                      let (refNum, taken) :=
                        groupRef n (length (snd m)) rest' in
                      g <-- groupText refNum m ;;
                      tl <-- expand rest (S taken) m ;;
                      inr (g ++ tl)
                  end
            end
          else tl <-- expand rest 0 m ;; inr (c :: tl)
      end
  end.

(** [Matcher.replaceAll]: every match, found as [scan] finds them, is
    replaced by the expansion of [repl]; the text between matches is
    kept.  The replacement is only read when there is a match. *)
Fixpoint replaceFrom (r : regex) (repl : text) (s : text) (skip : nat)
  : result text :=
  match s with
  | [] =>
      match skip, matchHere r [] with
      | 0, Some m => expand repl 0 m
      | _, _ => inr []
      end
  | c :: s' =>
      match skip with
      | S n => replaceFrom r repl s' n
      | 0 =>
          match matchHere r s with
          | Some m =>
              out <-- expand repl 0 m ;;
              tl <-- replaceFrom r repl s' (length (fst m) - 1) ;;
              inr (out ++ match fst m with [] => c :: tl | _ => tl end)
          | None => tl <-- replaceFrom r repl s' 0 ;; inr (c :: tl)
          end
      end
  end.

(** [s.replaceAll(regex, replacement)] *)
Definition replaceAll (s : text) (r : regex) (repl : text) : result text :=
  replaceFrom r repl s 0.

(** The [replacements] array, as (pattern, replacement) pairs: the loop
    reads entries [i] and [i + 1] for [i = 0, 2, 4].  In the Java string
    literals a doubled backslash is one backslash, so the patterns have
    [\s], [\(], [\$], [\)] and the replacements a backslash followed by
    [n]. *)
Definition replacements : list (regex * text) :=
  [ (* Full Name:\s*<input type='text' name='name'> *)
    (Cat (Lit (lit "Full Name:"))
         (Cat (Star Space) (Lit (lit "<input type='text' name='name'>"))),
     lit "<label for='fullName'>Full Name:</label>\n    <input type='text' id='fullName' name='name' required>");
    (* Donation Amount \(\$\):\s*<input type='number' name='amount'> *)
    (Cat (Lit (lit "Donation Amount ($):"))
         (Cat (Star Space) (Lit (lit "<input type='number' name='amount'>"))),
     lit "<label for='donationAmount'>Donation Amount ($):</label>\n    <input type='number' id='donationAmount' name='amount' required>");
    (* <input type='checkbox' name='newsletter'>\s*Subscribe *)
    (Cat (Lit (lit "<input type='checkbox' name='newsletter'>"))
         (Cat (Star Space) (Lit (lit "Subscribe"))),
     lit "<label for='subscribe'>Subscribe</label>\n    <input type='checkbox' id='subscribe' name='newsletter'>")
  ].

Definition fixFormHTML (originalHTML : text) : result text :=
  let fixedHTML := originalHTML in
  (* Remove </input> closing tags *)
  fixedHTML <-- replaceAll fixedHTML (Lit (lit "</input>")) [] ;;
  (* Fix email input type *)
  fixedHTML <-- replaceAll fixedHTML
                  (Lit (lit "<input type='text' name='email'>"))
                  (lit "<input type='email' id='emailAddress' name='email' required>") ;;
  (* Add labels and associations for existing inputs *)
  fold_left (fun acc p =>
               fixedHTML <-- acc ;;
               replaceAll fixedHTML (fst p) (snd p))
            replacements (inr fixedHTML).

(** *** The markup literals

    The Java copy writes its two markup literals between triple quotes.
    Read as text blocks they lose the blanks that end a line (no line of
    either literal is indented against the others, so nothing else
    changes); read as they stand they are the literals of basic.js. *)

Fixpoint dropWhile (p : ascii -> bool) (l : text) : text :=
  match l with
  | c :: l' => if p c then dropWhile p l' else l
  | [] => []
  end.

Definition stripTrailing (l : text) : text := rev (dropWhile isSpace (rev l)).

Definition textBlock (ls : list string) : text :=
  joinLines (map (fun l => stripTrailing (lit l)) ls).

Definition generateCorrectedHTML : text :=
  textBlock [
    "<!DOCTYPE html>";
    "<html lang='en'>";
    "<head>";
    "  <meta charset='UTF-8'>";
    "  <title>Donation Form</title>";
    "</head>";
    "<body>";
    "  <h1>Donation Form</h1>";
    "  <form>";
    "    <label for='fullName'>Full Name:</label>";
    "    <input type='text' id='fullName' name='name' required>";
    "    ";
    "    <label for='emailAddress'>Email Address:</label>";
    "    <input type='email' id='emailAddress' name='email' required>";
    "    ";
    "    <label for='donationAmount'>Donation Amount ($):</label>";
    "    <input type='number' id='donationAmount' name='amount' required>";
    "    ";
    "    <label for='subscribe'>Subscribe</label>";
    "    <input type='checkbox' id='subscribe' name='newsletter'>";
    "    ";
    "    <input type='submit' value='Send'>";
    "  </form>";
    "</body>";
    "</html>"
  ]%string.

(** The sample markup of [main]. *)
Definition originalHTML : text :=
  textBlock [
    "<!DOCTYPE html>";
    "<html lang='en'>";
    "<head>";
    "  <meta charset='UTF-8'>";
    "  <title>Donation Form</title>";
    "</head>";
    "<body>";
    "  <h1>Donation Form</h1>";
    "  <form>";
    "    ";
    "    Full Name:";
    "    <input type='text' name='name'></input>";
    EmptyString;
    "    Email Address:";
    "    <input type='text' name='email'>";
    EmptyString;
    "    Donation Amount ($):";
    "    <input type='number' name='amount'></input>";
    EmptyString;
    "    <input type='checkbox' name='newsletter'></input>";
    "    Subscribe";
    EmptyString;
    "    <input type='submit' value='Send'></input>";
    "  </form>";
    "</body>";
    "</html>"
  ]%string.

(** *** The validator's Java copy

    It uses the patterns and the messages of basic.js.  It keeps the
    identifiers in hash sets and the checklist in a hash map. *)

(** [matcher.group(1)] after a successful [find()].  Group 1 takes part
    in every match of the patterns it is used with ([firstGroupSet]), so
    it is never [null]. *)
Definition group1 (m : found) : text :=
  match snd m with
  | Some g :: _ => g
  | _ => []
  end.

(** [while (matcher.find()) set.add(matcher.group(1))]: the elements
    added, in the order of the matches. *)
Definition collectGroup1 (r : regex) (s : text) : list text :=
  map group1 (scan r s 0).

(** [pattern.matcher(s).find()] *)
Definition find (r : regex) (s : text) : bool :=
  match search r s with
  | Some _ => true
  | None => false
  end.

(** [<input type='checkbox'[^>]*required[^>]*>] *)
Definition checkboxRequiredPattern : regex :=
  Cat (Lit (lit "<input type='checkbox'"))
      (Cat (Star (NotChar ">"))
           (Cat (Lit (lit "required"))
                (Cat (Star (NotChar ">")) (Lit (lit ">"))))).

(** [<input type='submit'[^>]*required[^>]*>] *)
Definition submitRequiredPattern : regex :=
  Cat (Lit (lit "<input type='submit'"))
      (Cat (Star (NotChar ">"))
           (Cat (Lit (lit "required"))
                (Cat (Star (NotChar ">")) (Lit (lit ">"))))).

(** A [HashMap<String, Boolean>] by its entries. *)
Definition hashMap := list (string * bool).

Fixpoint put (k : string) (v : bool) (m : hashMap) : hashMap :=
  match m with
  | [] => [(k, v)]
  | (k', v') :: rest =>
      if String.eqb k' k then (k, v) :: rest else (k', v') :: put k v rest
  end.

Fixpoint get (k : string) (m : hashMap) : option bool :=
  match m with
  | [] => None
  | (k', v) :: rest => if String.eqb k' k then Some v else get k rest
  end.

Definition keySet (m : hashMap) : list string := map fst m.

(** The keys the checklist is built with, in the order of the [put]
    calls. *)
Definition ruleNames : list string :=
  [ "no_input_closing_tags"; "five_input_elements"; "four_label_elements";
    "first_label_text"; "first_input_required"; "second_label_text";
    "second_input_required"; "third_label_text"; "third_input_required";
    "fourth_label_text"; "label_input_association"; "email_input_type";
    "checkbox_not_required"; "submit_not_required" ]%string.

Definition checkLabelInputAssociation (htmlContent : text) : bool :=
  let labelFors := collectGroup1 labelForPattern htmlContent in
  let inputIds := collectGroup1 inputIdPattern htmlContent in
  (* inputIds.containsAll(labelFors) *)
  forallb (fun labelFor => arrayIncludes inputIds labelFor) labelFors.

Definition validateAllRequirements (htmlContent : text) : hashMap :=
  fold_left (fun tests entry => put (fst entry) (snd entry) tests)
    [ ("no_input_closing_tags"%string,
         negb (includes htmlContent (lit "</input>")));
      ("five_input_elements"%string,
         length (scan inputPattern htmlContent 0) =? 5);
      ("four_label_elements"%string,
         length (scan labelTagPattern htmlContent 0) =? 4);
      ("first_label_text"%string,
         includes htmlContent (lit "<label for='fullName'>Full Name:</label>"));
      ("first_input_required"%string,
         includes htmlContent
           (lit "<input type='text' id='fullName' name='name' required>"));
      ("second_label_text"%string,
         includes htmlContent
           (lit "<label for='emailAddress'>Email Address:</label>"));
      ("second_input_required"%string,
         includes htmlContent
           (lit "<input type='email' id='emailAddress' name='email' required>"));
      ("third_label_text"%string,
         includes htmlContent
           (lit "<label for='donationAmount'>Donation Amount ($):</label>"));
      ("third_input_required"%string,
         includes htmlContent
           (lit "<input type='number' id='donationAmount' name='amount' required>"));
      ("fourth_label_text"%string,
         includes htmlContent (lit "<label for='subscribe'>Subscribe</label>"));
      ("label_input_association"%string,
         checkLabelInputAssociation htmlContent);
      ("email_input_type"%string, includes htmlContent (lit "type='email'"));
      ("checkbox_not_required"%string,
         negb (find checkboxRequiredPattern htmlContent));
      ("submit_not_required"%string,
         negb (find submitRequiredPattern htmlContent)) ]
    [].

Section Validator.

(** The order in which a [HashSet] hands out its elements is not
    specified: [enumerate l] stands for the enumeration of the set the
    elements of [l] were added to. *)
Variable enumerate : list text -> list text.

Definition validateFormStructure (htmlContent : text) : list text :=
  let errors : list text := [] in
  (* Check for </input> closing tags *)
  let errors :=
    if includes htmlContent (lit "</input>") then errors ++ [voidDiag]
    else errors in
  (* Check for proper label-input associations *)
  let labelIds := collectGroup1 labelPattern htmlContent in
  let inputIds := collectGroup1 inputIdPattern htmlContent in
  let errors :=
    fold_left (fun errs labelId =>
                 if negb (arrayIncludes inputIds labelId)
                 then errs ++ [labelDiag labelId]
                 else errs)
              (enumerate labelIds) errors in
  (* Check for required attributes on text, email, and number inputs *)
  let errors :=
    fold_left (fun errs m =>
                 let inputTag := fst m in
                 if negb (includes inputTag (lit "required"))
                 then match search typePattern inputTag with
                      | Some typeMatch =>
                          errs ++ [requiredDiag (group1 typeMatch)]
                      | None => errs
                      end
                 else errs)
              (scan requiredInputPattern htmlContent 0) errors in
  (* Check email input type *)
  if negb (includes htmlContent (lit "type='email'"))
  then errors ++ [emailDiag]
  else errors.

End Validator.

End Java.

(* ================================================================= *)
(** ** The words of the specification *)

Module Spec.

(** Some input element carries the email variant: an input start tag
    with [type='email'] among its attributes. *)
Definition hasEmailInput (s : text) : Prop :=
  exists pre a b post,
    s = pre ++ lit "<input" ++ a ++ lit "type='email'" ++ b ++ lit ">" ++ post
    /\ ~ In ">"%char a /\ ~ In ">"%char b.

(** The markup has a label element with a [for] attribute: a label start
    tag, closed by its [>], with [for='] among its attributes. *)
Definition hasLabelFor (s : text) : Prop :=
  exists pre a b post,
    s = pre ++ lit "<label" ++ a ++ lit "for='" ++ b ++ lit ">" ++ post
    /\ ~ In ">"%char a /\ ~ In ">"%char b.

(** Markup without a label element with a [for] attribute passes the
    association check, and with it the [labelInputAssociation] rule. *)
Definition associationHoldsWithoutLabels (s : text) : Prop :=
  ~ hasLabelFor s ->
  checkLabelInputAssociation s = Some true
  /\ exists t, validateAllRequirements s = Some t
               /\ getRule "labelInputAssociation" t = Some true.

(** A label start tag that is cut off before its [>]: no element. *)
Definition unclosedLabel : text := lit "<label for='x'".

(** The email diagnostic is there exactly when no input element carries
    the email variant. *)
Definition emailDiagnosticTracksInputs (s : text) : Prop :=
  (~ hasEmailInput s ->
   exists errs, validateFormStructure s = Some errs /\ In emailDiag errs)
  /\ (hasEmailInput s ->
      exists errs, validateFormStructure s = Some errs
                   /\ ~ In emailDiag errs).

(** What the sample's diagnostics are said to contain: the void-tag
    diagnostic, the email diagnostic and label diagnostics naming two
    field identifiers. *)
Definition sampleDiagnostics (errs : list text) : Prop :=
  errs <> [] /\ In voidDiag errs /\ In emailDiag errs
  /\ exists a b, a <> b /\ In (labelDiag a) errs /\ In (labelDiag b) errs.

(** Every label target without an input of that id is named by a
    diagnostic; targets and ids are the ones the validator's own patterns
    extract. *)
Definition orphansReported (s : text) : Prop :=
  forall labelIds inputIds,
    mapM (matchGroup1 forPattern) (orEmpty (matchG labelPattern s)) = Some labelIds ->
    mapM (matchGroup1 idPattern) (orEmpty (matchG inputIdPattern s)) = Some inputIds ->
    exists errs,
      validateFormStructure s = Some errs
      /\ forall id, In id labelIds -> ~ In id inputIds ->
                    In (labelDiag id) errs.

(** The sample with a label for the name field whose input has no id. *)
Definition labelWithoutInputId : text :=
  unlines [
    "<label for='fullName'>Full Name:</label>";
    "<input type='text' name='name' required>"
  ]%string.

(** Markup that mentions the email variant outside any input element. *)
Definition emailMentionedInText : text := lit "<p>type='email'</p>".

Definition isLabelDiag (d : text) : Prop := exists id, d = labelDiag id.
Definition isRequiredDiag (d : text) : Prop := exists ty, d = requiredDiag ty.

(** [fixFormHTML(fixFormHTML(markup))] *)
Definition fixTwice (markup : text) : Java.result text :=
  Java.bindR (Java.fixFormHTML markup) Java.fixFormHTML.

(** A way of enumerating hash sets: the elements added, in some order. *)
Definition enumerates (enumerate : list text -> list text) : Prop :=
  forall l x, In x (enumerate l) <-> In x l.

End Spec.
Import Spec.

(* ================================================================= *)
(** ** Names for the parts of a result and of the fixer *)

Module Parts.

(** What the required-attribute loop pushes for one matched input tag. *)
Definition requiredMessages (input : text) : list text :=
  if negb (includes input (lit "required"))
  then match matchGroup1 typePattern input with
       | Some ty => [requiredDiag ty]
       | None => []
       end
  else [].

(** What the association check pushes, read off its branches. *)
Definition labelPartOf (s : text) (labelPart : list text) : Prop :=
  match matchG labelPattern s, matchG inputIdPattern s with
  | Some lm, Some im =>
      exists labelIds inputIds,
        mapM (matchGroup1 forPattern) lm = Some labelIds
        /\ mapM (matchGroup1 idPattern) im = Some inputIds
        /\ labelPart
           = map labelDiag
                 (filter (fun id => negb (arrayIncludes inputIds id)) labelIds)
  | _, _ => labelPart = []
  end.

(** The entries of the Java [replacements] array by field. *)
Definition nameRewrite : regex * text := nth 0 Java.replacements (Lit [], []).
Definition amountRewrite : regex * text := nth 1 Java.replacements (Lit [], []).
Definition newsletterRewrite : regex * text :=
  nth 2 Java.replacements (Lit [], []).

(** The first two rewrites of [fixFormHTML]. *)
Definition closingTag : text := lit "</input>".
Definition emailInput : text := lit "<input type='text' name='email'>".
Definition emailInputFixed : text :=
  lit "<input type='email' id='emailAddress' name='email' required>".

(** What the name rewrite puts in place of a match. *)
Definition nameInserted : text :=
  lit "<label for='fullName'>Full Name:</label>n    <input type='text' id='fullName' name='name' required>".

(** A hash set that hands out its elements in the order they came. *)
Definition inOrder (l : list text) : list text := l.

(** The rules both copies compute the same way, by their two names. *)
Definition sharedRules : list (string * string) :=
  [ ("noInputClosingTags", "no_input_closing_tags");
    ("fiveInputElements", "five_input_elements");
    ("fourLabelElements", "four_label_elements");
    ("firstLabelText", "first_label_text");
    ("firstInputRequired", "first_input_required");
    ("secondLabelText", "second_label_text");
    ("secondInputRequired", "second_input_required");
    ("thirdLabelText", "third_label_text");
    ("thirdInputRequired", "third_input_required");
    ("fourthLabelText", "fourth_label_text");
    ("emailInputType", "email_input_type") ]%string.

End Parts.
Import Parts.

(* ================================================================= *)
(** ** Facts about text *)

Section TextFacts.

Lemma text_eqb_eq (a b : text) : text_eqb a b = true <-> a = b.
Proof.
  revert b; induction a as [|x a IH]; intros [|y b]; simpl;
    try (split; [discriminate | congruence]); try tauto.
  rewrite andb_true_iff, Ascii.eqb_eq, IH.
  split; [intros [-> ->]; reflexivity | intros E; injection E; auto].
Qed.

Lemma text_eqb_refl (a : text) : text_eqb a a = true.
Proof. apply text_eqb_eq; reflexivity. Qed.

Lemma arrayIncludes_In (arr : list text) (x : text) :
  arrayIncludes arr x = true <-> In x arr.
Proof.
  unfold arrayIncludes; rewrite existsb_exists; split.
  - intros (y & Hy & E); apply text_eqb_eq in E; subst; assumption.
  - intros H; exists x; split; [assumption | apply text_eqb_refl].
Qed.

Lemma startsWith_app (p rest : text) : startsWith (p ++ rest) p = true.
Proof.
  induction p as [|x p IH]; simpl; [reflexivity|].
  rewrite Ascii.eqb_refl; exact IH.
Qed.

Lemma startsWith_split (s p : text) :
  startsWith s p = true -> s = p ++ skipn (length p) s.
Proof.
  revert s; induction p as [|x p IH]; intros s H; simpl in *.
  - reflexivity.
  - destruct s as [|y s]; [discriminate|].
    apply andb_true_iff in H; destruct H as [E H].
    apply Ascii.eqb_eq in E; subst y.
    simpl; f_equal; apply IH; assumption.
Qed.

Lemma startsWith_iff (s p : text) :
  startsWith s p = true <-> exists rest, s = p ++ rest.
Proof.
  split.
  - intros H; eexists; apply startsWith_split; assumption.
  - intros [rest ->]; apply startsWith_app.
Qed.

Lemma includes_iff (s p : text) :
  includes s p = true <-> exists pre post, s = pre ++ p ++ post.
Proof.
  induction s as [|c s IH]; simpl.
  - rewrite orb_false_r, startsWith_iff; split.
    + intros [rest E]; exists [], rest; exact E.
    + intros (pre & post & E).
      destruct pre; [exists post; exact E | discriminate].
  - rewrite orb_true_iff, IH, startsWith_iff; split.
    + intros [[rest E] | (pre & post & E)].
      * exists [], rest; exact E.
      * exists (c :: pre), post; simpl; f_equal; exact E.
    + intros (pre & post & E); destruct pre as [|x pre]; simpl in E.
      * left; exists post; exact E.
      * right; exists pre, post; injection E; auto.
Qed.

Lemma includes_false (s p : text) :
  includes s p = false <-> ~ exists pre post, s = pre ++ p ++ post.
Proof.
  rewrite <- includes_iff; destruct (includes s p); split;
    congruence || tauto.
Qed.

Lemma firstn_minus_app (u rest : text) :
  firstn (length (u ++ rest) - length rest) (u ++ rest) = u.
Proof.
  rewrite length_app, Nat.add_sub.
  rewrite firstn_app, Nat.sub_diag, firstn_all; simpl.
  apply app_nil_r.
Qed.

End TextFacts.

(* ================================================================= *)
(** ** The matcher against the pattern's language *)

Section MatcherFacts.

Lemma starRests_iff (k : cclass) (s rest : text) :
  In rest (starRests k s) <->
  exists u, s = u ++ rest /\ Forall (fun c => inClass k c = true) u.
Proof.
  revert rest; induction s as [|c s IH]; intros rest; simpl.
  - split.
    + intros [<- | []]; exists []; split; [reflexivity | constructor].
    + intros (u & E & _); symmetry in E.
      apply app_eq_nil in E; destruct E as [_ ->]; left; reflexivity.
  - destruct (inClass k c) eqn:K.
    + rewrite in_app_iff, IH; simpl; split.
      * intros [(u & -> & F) | [<- | []]].
        -- exists (c :: u); split; [reflexivity | constructor; assumption].
        -- exists []; split; [reflexivity | constructor].
      * intros (u & E & F); destruct u as [|x u]; simpl in E.
        -- right; left; congruence.
        -- injection E as -> ->; left; exists u; split; [reflexivity|].
           inversion F; assumption.
    + simpl; split.
      * intros [<- | []]; exists []; split; [reflexivity | constructor].
      * intros (u & E & F); destruct u as [|x u]; simpl in E.
        -- left; congruence.
        -- injection E as -> ->; inversion F; congruence.
Qed.

Lemma matchAt_sound (r : regex) : forall s g rest,
  In (g, rest) (matchAt r s) -> exists u, s = u ++ rest /\ Lang r u.
Proof.
  induction r as [t | k | k | r1 IH1 r2 IH2 | r1 IH1 r2 IH2 | r IH];
    intros s g rest H; simpl in *.
  - destruct (startsWith s t) eqn:W; [|contradiction].
    destruct H as [E | []]; injection E as <- <-.
    exists t; split; [apply startsWith_split; assumption | reflexivity].
  - apply in_map_iff in H; destruct H as (x & E & H); injection E as <- <-.
    apply starRests_iff in H; exact H.
  - destruct s as [|c s]; [contradiction|].
    destruct (inClass k c) eqn:K; [|contradiction].
    apply in_map_iff in H; destruct H as (x & E & H); injection E as <- <-.
    apply starRests_iff in H; destruct H as (u & -> & F).
    exists (c :: u); repeat split; [discriminate | constructor; assumption].
  - apply in_app_iff in H; destruct H as [H | H];
      apply in_map_iff in H; destruct H as ([g' rest'] & E & H);
      simpl in E; injection E as <- <-.
    + destruct (IH1 _ _ _ H) as (u & -> & L); exists u; auto.
    + destruct (IH2 _ _ _ H) as (u & -> & L); exists u; auto.
  - apply in_flat_map in H; destruct H as ([g1 s1] & H1 & H).
    apply in_map_iff in H; destruct H as ([g2 s2] & E & H2).
    simpl in *; injection E as <- <-.
    destruct (IH1 _ _ _ H1) as (u1 & -> & L1).
    destruct (IH2 _ _ _ H2) as (u2 & -> & L2).
    exists (u1 ++ u2); split; [apply app_assoc | exists u1, u2; auto].
  - apply in_map_iff in H; destruct H as ([g' rest'] & E & H).
    simpl in E; injection E as <- <-.
    apply (IH _ _ _ H).
Qed.

Lemma matchAt_complete (r : regex) : forall u rest,
  Lang r u -> exists g, In (g, rest) (matchAt r (u ++ rest)).
Proof.
  induction r as [t | k | k | r1 IH1 r2 IH2 | r1 IH1 r2 IH2 | r IH];
    intros u rest L; simpl in *.
  - subst u; rewrite startsWith_app.
    exists []; left; f_equal.
    rewrite skipn_app, Nat.sub_diag, skipn_all; reflexivity.
  - exists []; apply in_map_iff; exists rest; split; [reflexivity|].
    apply starRests_iff; exists u; auto.
  - destruct L as [N F]; destruct u as [|c u]; [congruence|]; simpl.
    inversion F as [|? ? K F']; subst; rewrite K.
    exists []; apply in_map_iff; exists rest; split; [reflexivity|].
    apply starRests_iff; exists u; auto.
  - destruct L as [L | L].
    + destruct (IH1 _ rest L) as [g H]; eexists; apply in_app_iff; left.
      apply in_map_iff; exists (g, rest); split; [reflexivity | exact H].
    + destruct (IH2 _ rest L) as [g H]; eexists; apply in_app_iff; right.
      apply in_map_iff; exists (g, rest); split; [reflexivity | exact H].
  - destruct L as (u1 & u2 & -> & L1 & L2).
    destruct (IH1 _ (u2 ++ rest) L1) as [g1 H1].
    destruct (IH2 _ rest L2) as [g2 H2].
    exists (g1 ++ g2); rewrite <- app_assoc.
    apply in_flat_map; exists (g1, u2 ++ rest); split; [exact H1|].
    apply in_map_iff; exists (g2, rest); split; [reflexivity | exact H2].
  - destruct (IH _ rest L) as [g H]; eexists.
    apply in_map_iff; exists (g, rest); split; [reflexivity | exact H].
Qed.

Lemma matchAt_groups (r : regex) : forall s g rest,
  In (g, rest) (matchAt r s) -> length g = ngroups r.
Proof.
  induction r as [t | k | k | r1 IH1 r2 IH2 | r1 IH1 r2 IH2 | r IH];
    intros s g rest H; simpl in *.
  - destruct (startsWith s t); [|contradiction].
    destruct H as [E | []]; injection E as <- <-; reflexivity.
  - apply in_map_iff in H; destruct H as (x & E & _).
    injection E as <- <-; reflexivity.
  - destruct s as [|c s]; [contradiction|].
    destruct (inClass k c); [|contradiction].
    apply in_map_iff in H; destruct H as (x & E & _).
    injection E as <- <-; reflexivity.
  - apply in_app_iff in H; destruct H as [H | H];
      apply in_map_iff in H; destruct H as ([g' rest'] & E & H);
      simpl in E; injection E as <- <-;
      rewrite length_app, repeat_length.
    + f_equal; apply (IH1 _ _ _ H).
    + f_equal; apply (IH2 _ _ _ H).
  - apply in_flat_map in H; destruct H as ([g1 s1] & H1 & H).
    apply in_map_iff in H; destruct H as ([g2 s2] & E & H2).
    simpl in *; injection E as <- <-.
    rewrite length_app; f_equal; [apply (IH1 _ _ _ H1) | apply (IH2 _ _ _ H2)].
  - apply in_map_iff in H; destruct H as ([g' rest'] & E & H).
    simpl in E; injection E as <- <-.
    simpl; f_equal; apply (IH _ _ _ H).
Qed.

(** Group 1 is set in every match of a pattern that meets its first
    group outside any alternative. *)
Lemma matchAt_firstGroupSet (r : regex) :
  firstGroupSet r = true ->
  forall s g rest, In (g, rest) (matchAt r s) -> exists x g', g = Some x :: g'.
Proof.
  induction r as [t | k | k | r1 IH1 r2 IH2 | r1 IH1 r2 IH2 | r IH];
    simpl; try discriminate; intros F s g rest H.
  - apply in_flat_map in H; destruct H as ([g1 s1] & H1 & H).
    apply in_map_iff in H; destruct H as ([g2 s2] & E & H2).
    simpl in *; injection E as <- <-.
    pose proof (matchAt_groups _ _ _ _ H1) as N.
    destruct (ngroups r1).
    + destruct g1; [|discriminate]; simpl.
      apply (IH2 F _ _ _ H2).
    + destruct (IH1 F _ _ _ H1) as (x & g' & ->); simpl; eauto.
  - apply in_map_iff in H; destruct H as ([g' rest'] & E & _).
    simpl in E; injection E as <- <-; eauto.
Qed.

Lemma matchHere_sound (r : regex) (s m : text) g :
  matchHere r s = Some (m, g) ->
  exists rest, s = m ++ rest /\ Lang r m /\ In (g, rest) (matchAt r s).
Proof.
  unfold matchHere; intros H.
  destruct (matchAt r s) as [|[g' rest] l] eqn:E; [discriminate|].
  injection H as <- <-.
  assert (I : In (g', rest) (matchAt r s)) by (rewrite E; left; reflexivity).
  destruct (matchAt_sound _ _ _ _ I) as (u & -> & L).
  rewrite firstn_minus_app; exists rest; rewrite <- E; auto.
Qed.

Lemma matchHere_complete (r : regex) (u rest : text) :
  Lang r u -> exists m, matchHere r (u ++ rest) = Some m.
Proof.
  intros L; destruct (matchAt_complete r u rest L) as [g H].
  unfold matchHere; destruct (matchAt r (u ++ rest)) as [|[g' rest'] l];
    [contradiction | eauto].
Qed.

Lemma search_sound (r : regex) : forall s m g,
  search r s = Some (m, g) ->
  exists pre post, s = pre ++ m ++ post /\ Lang r m
                   /\ In (g, post) (matchAt r (m ++ post)).
Proof.
  induction s as [|c s IH]; intros m g H; simpl in H.
  - destruct (matchHere r []) as [[m' g']|] eqn:E; [|discriminate].
    injection H as -> ->.
    destruct (matchHere_sound _ _ _ _ E) as (rest & E' & L & I).
    exists [], rest; simpl; rewrite <- E'; auto.
  - destruct (matchHere r (c :: s)) as [[m' g']|] eqn:E.
    + injection H as -> ->.
      destruct (matchHere_sound _ _ _ _ E) as (rest & E' & L & I).
      exists [], rest; simpl; rewrite <- E'; auto.
    + destruct (IH _ _ H) as (pre & post & -> & L & I).
      exists (c :: pre), post; auto.
Qed.

Lemma search_complete (r : regex) (u post : text) : forall pre,
  Lang r u -> exists m, search r (pre ++ u ++ post) = Some m.
Proof.
  intros pre L; induction pre as [|c pre IH]; simpl.
  - destruct (matchHere_complete r u post L) as [m E].
    destruct (u ++ post); simpl; rewrite E; eauto.
  - destruct (matchHere r (c :: pre ++ u ++ post)); eauto.
Qed.

Lemma scan_sound (r : regex) : forall s skip m g,
  In (m, g) (scan r s skip) ->
  exists pre post, s = pre ++ m ++ post /\ Lang r m.
Proof.
  induction s as [|c s IH]; intros skip m g H; simpl in H.
  - destruct skip; [|contradiction].
    destruct (matchHere r []) as [[m' g']|] eqn:E; [|contradiction].
    destruct H as [H | []]; injection H as -> ->.
    destruct (matchHere_sound _ _ _ _ E) as (rest & E' & L & _).
    exists [], rest; auto.
  - destruct skip as [|n].
    + destruct (matchHere r (c :: s)) as [[m' g']|] eqn:E.
      * destruct H as [H | H].
        -- injection H as -> ->.
           destruct (matchHere_sound _ _ _ _ E) as (rest & E' & L & _).
           exists [], rest; auto.
        -- destruct (IH _ _ _ H) as (pre & post & -> & L).
           exists (c :: pre), post; auto.
      * destruct (IH _ _ _ H) as (pre & post & -> & L).
        exists (c :: pre), post; auto.
    + destruct (IH _ _ _ H) as (pre & post & -> & L).
      exists (c :: pre), post; auto.
Qed.

End MatcherFacts.

(* ================================================================= *)
(** ** The validator never indexes [null] *)

Section ValidatorFacts.

Lemma mapM_total {A B} (f : A -> option B) (l : list A) :
  (forall x, In x l -> exists y, f x = Some y) ->
  exists ys, mapM f l = Some ys.
Proof.
  induction l as [|a l IH]; simpl; intros H; [eauto|].
  destruct (H a) as [y ->]; [auto|].
  destruct IH as [ys ->]; [intros; apply H; auto|].
  simpl; eauto.
Qed.

(** A loop whose body only ever pushes messages of one kind leaves the
    messages pushed so far in place and adds messages of that kind. *)
Lemma forEach_pushes {A} (Q : text -> Prop)
      (body : A -> list text -> option (list text)) (arr : list A) :
  (forall x e, In x arr ->
     exists d, body x e = Some (e ++ d) /\ Forall Q d) ->
  forall errors, exists extra,
    forEach body arr errors = Some (errors ++ extra) /\ Forall Q extra.
Proof.
  induction arr as [|a arr IH]; simpl; intros H errors.
  - exists []; rewrite app_nil_r; auto.
  - destruct (H a errors) as (d & -> & Qd); [auto|]; simpl.
    destruct (IH (fun x e I => H x e (or_intror I)) (errors ++ d))
      as (extra & -> & Qe).
    exists (d ++ extra); rewrite app_assoc; split; [reflexivity|].
    apply Forall_app; auto.
Qed.

(** The same loop with a body that cannot throw: it pushes one message
    for every element the test selects, in order. *)
Lemma forEach_filter {A} (test : A -> bool) (msg : A -> text)
      (arr : list A) : forall errors,
  forEach (fun x errs => if test x then Some (errs ++ [msg x]) else Some errs)
          arr errors
  = Some (errors ++ map msg (filter test arr)).
Proof.
  induction arr as [|a arr IH]; simpl; intros errors.
  - rewrite app_nil_r; reflexivity.
  - destruct (test a); simpl; rewrite IH; [|reflexivity].
    rewrite <- app_assoc; reflexivity.
Qed.

Lemma matchG_sound (r : regex) (s : text) (ms : list text) (m : text) :
  matchG r s = Some ms -> In m ms ->
  exists pre post, s = pre ++ m ++ post /\ Lang r m.
Proof.
  unfold matchG; intros E I.
  assert (H : In m (map fst (scan r s 0))).
  { destruct (scan r s 0); [discriminate|]; injection E as <-; exact I. }
  apply in_map_iff in H; destruct H as ([m' g] & <- & H).
  apply scan_sound in H; exact H.
Qed.

Lemma orEmpty_sound (r : regex) (s m : text) :
  In m (orEmpty (matchG r s)) ->
  exists pre post, s = pre ++ m ++ post /\ Lang r m.
Proof.
  destruct (matchG r s) as [ms|] eqn:E; simpl; [|contradiction].
  apply matchG_sound; assumption.
Qed.

(** [s.match(r)[1]] is defined as soon as [r] matches somewhere in
    [s], for a pattern whose group 1 is always set. *)
Lemma matchGroup1_total (r : regex) (s : text) :
  firstGroupSet r = true ->
  (exists pre u post, s = pre ++ u ++ post /\ Lang r u) ->
  exists g, matchGroup1 r s = Some g.
Proof.
  intros G (pre & u & post & -> & L).
  destruct (search_complete _ u post pre L) as [[m g] E].
  unfold matchGroup1; rewrite E.
  destruct (search_sound _ _ _ _ E) as (pre' & post' & _ & _ & I).
  destruct (matchAt_firstGroupSet _ G _ _ _ I) as (x & g' & ->); eauto.
Qed.

Lemma quoted_value (x : text) :
  x <> [] -> Forall (fun c => inClass (NotChar dquote) c = true) x ->
  forall key, Lang (Cat (Lit key)
                        (Cat (Group (Plus (NotChar dquote))) (Lit (lit "'"))))
                   (key ++ x ++ lit "'").
Proof.
  intros N F key; cbn [Lang].
  exists key, (x ++ lit "'"); repeat split.
  exists x, (lit "'"); auto.
Qed.

(** Each text a global match hands to the inner match contains what the
    inner pattern looks for. *)
Lemma labelTag_has_for (m : text) :
  Lang labelPattern m ->
  exists pre u post, m = pre ++ u ++ post /\ Lang forPattern u.
Proof.
  unfold labelPattern; cbn [Lang].
  intros (u1 & u2 & -> & -> & u3 & u4 & -> & [N F] & ->).
  exists (lit "<label "), (lit "for='" ++ u3 ++ lit "'"), (lit ">").
  split; [|apply quoted_value; assumption].
  replace (lit "<label for='") with (lit "<label " ++ lit "for='")
    by reflexivity.
  replace (lit "'>") with (lit "'" ++ lit ">") by reflexivity.
  repeat rewrite <- app_assoc; reflexivity.
Qed.

Lemma labelFor_has_for (m : text) :
  Lang labelForPattern m ->
  exists pre u post, m = pre ++ u ++ post /\ Lang forPattern u.
Proof.
  unfold labelForPattern; cbn [Lang].
  intros (u1 & u2 & -> & -> & u3 & u4 & -> & [N F] & ->).
  exists (lit "<label "), (lit "for='" ++ u3 ++ lit "'"), [].
  split; [|apply quoted_value; assumption].
  replace (lit "<label for='") with (lit "<label " ++ lit "for='")
    by reflexivity.
  rewrite app_nil_r; repeat rewrite <- app_assoc; reflexivity.
Qed.

Lemma inputId_has_id (m : text) :
  Lang inputIdPattern m ->
  exists pre u post, m = pre ++ u ++ post /\ Lang idPattern u.
Proof.
  unfold inputIdPattern; cbn [Lang].
  intros (u1 & u2 & -> & -> & u3 & u4 & -> & _ & u5 & u6 & -> & ->
          & u7 & u8 & -> & [N F] & ->).
  exists (lit "<input" ++ u3), (lit "id='" ++ u7 ++ lit "'"), [].
  split; [|apply quoted_value; assumption].
  rewrite app_nil_r; repeat rewrite <- app_assoc; reflexivity.
Qed.

Lemma requiredInput_has_type (m : text) :
  Lang requiredInputPattern m ->
  exists pre u post, m = pre ++ u ++ post /\ Lang typePattern u.
Proof.
  unfold requiredInputPattern; cbn [Lang].
  intros (u1 & u2 & -> & -> & u3 & u4 & -> & _ & u5 & u6 & -> & T
          & u7 & u8 & -> & _ & ->).
  exists (lit "<input" ++ u3), u5, (u7 ++ lit ">").
  split; [repeat rewrite <- app_assoc; reflexivity|].
  destruct T as [-> | [-> | ->]].
  - apply (quoted_value (lit "text")); [discriminate | repeat constructor].
  - apply (quoted_value (lit "email")); [discriminate | repeat constructor].
  - apply (quoted_value (lit "number")); [discriminate | repeat constructor].
Qed.

Lemma labelIds_total (s : text) (lm : list text) :
  (forall m, In m lm -> exists pre post, s = pre ++ m ++ post
                                          /\ Lang labelPattern m) ->
  exists ids, mapM (matchGroup1 forPattern) lm = Some ids.
Proof.
  intros H; apply mapM_total; intros m I.
  destruct (H m I) as (_ & _ & _ & L).
  apply matchGroup1_total; [reflexivity | apply labelTag_has_for, L].
Qed.

Lemma labelFors_total (s : text) :
  exists ids,
    mapM (matchGroup1 forPattern) (orEmpty (matchG labelForPattern s)) = Some ids.
Proof.
  apply mapM_total; intros m I.
  destruct (orEmpty_sound _ _ _ I) as (_ & _ & _ & L).
  apply matchGroup1_total; [reflexivity | apply labelFor_has_for, L].
Qed.

Lemma inputIds_total (s : text) (im : list text) :
  (forall m, In m im -> exists pre post, s = pre ++ m ++ post
                                          /\ Lang inputIdPattern m) ->
  exists ids, mapM (matchGroup1 idPattern) im = Some ids.
Proof.
  intros H; apply mapM_total; intros m I.
  destruct (H m I) as (_ & _ & _ & L).
  apply matchGroup1_total; [reflexivity | apply inputId_has_id, L].
Qed.

End ValidatorFacts.

(* ================================================================= *)
(** ** The shape of the validator's result *)

Section ResultShape.

Lemma label_step (s : text) (errors : list text) :
  exists labelPart,
    match matchG labelPattern s, matchG inputIdPattern s with
    | Some lm, Some im =>
        labelIds <- mapM (matchGroup1 forPattern) lm ;;
        inputIds <- mapM (matchGroup1 idPattern) im ;;
        forEach (fun id errs =>
                   if negb (arrayIncludes inputIds id)
                   then Some (errs ++ [labelDiag id])
                   else Some errs)
                labelIds errors
    | _, _ => Some errors
    end = Some (errors ++ labelPart)
    /\ Forall isLabelDiag labelPart.
Proof.
  destruct (matchG labelPattern s) as [lm|] eqn:EL;
    [destruct (matchG inputIdPattern s) as [im|] eqn:EI|];
    try (exists []; rewrite app_nil_r; split; [reflexivity | constructor]).
  destruct (labelIds_total s lm) as [labelIds ->];
    [intros m; apply matchG_sound; assumption|].
  destruct (inputIds_total s im) as [inputIds ->];
    [intros m; apply matchG_sound; assumption|].
  simpl; apply forEach_pushes; intros id e _.
  destruct (negb (arrayIncludes inputIds id)).
  - exists [labelDiag id]; split; [reflexivity|].
    repeat constructor; exists id; reflexivity.
  - exists []; rewrite app_nil_r; split; [reflexivity | constructor].
Qed.

Lemma required_step (s : text) (errors : list text) :
  exists reqPart,
    match matchG requiredInputPattern s with
    | Some ri =>
        forEach (fun input errs =>
                   if negb (includes input (lit "required"))
                   then ty <- matchGroup1 typePattern input ;;
                        Some (errs ++ [requiredDiag ty])
                   else Some errs)
                ri errors
    | None => Some errors
    end = Some (errors ++ reqPart)
    /\ Forall isRequiredDiag reqPart.
Proof.
  destruct (matchG requiredInputPattern s) as [ri|] eqn:ER;
    [|exists []; rewrite app_nil_r; split; [reflexivity | constructor]].
  apply forEach_pushes; intros input e I.
  destruct (negb (includes input (lit "required"))).
  - destruct (matchG_sound _ _ _ _ ER I) as (_ & _ & _ & L).
    destruct (matchGroup1_total typePattern input eq_refl
                                (requiredInput_has_type _ L)) as [ty ->].
    simpl.
    exists [requiredDiag ty]; split; [reflexivity|].
    repeat constructor; exists ty; reflexivity.
  - exists []; rewrite app_nil_r; split; [reflexivity | constructor].
Qed.

(** The result is always there, and is made of four parts in this
    order. *)
Lemma validateFormStructure_shape (s : text) :
  exists labelPart reqPart,
    validateFormStructure s
    = Some ((if includes s (lit "</input>") then [voidDiag] else [])
            ++ labelPart ++ reqPart
            ++ (if negb (includes s (lit "type='email'"))
                then [emailDiag] else []))
    /\ Forall isLabelDiag labelPart
    /\ Forall isRequiredDiag reqPart.
Proof.
  unfold validateFormStructure; cbv zeta.
  set (e0 := if includes s (lit "</input>") then [] ++ [voidDiag] else []).
  destruct (label_step s e0) as (labelPart & -> & FL).
  cbn [bind].
  destruct (required_step s (e0 ++ labelPart)) as (reqPart & -> & FR).
  cbn [bind].
  exists labelPart, reqPart; split; [|auto].
  f_equal; subst e0.
  destruct (includes s (lit "</input>"));
    destruct (negb (includes s (lit "type='email'")));
    cbn [app]; repeat rewrite <- app_assoc; rewrite ?app_nil_r; reflexivity.
Qed.

Theorem validateFormStructure_total (s : text) :
  exists errs, validateFormStructure s = Some errs.
Proof.
  destruct (validateFormStructure_shape s) as (lp & rp & E & _); eauto.
Qed.

Theorem checkLabelInputAssociation_total (s : text) :
  exists b, checkLabelInputAssociation s = Some b.
Proof.
  unfold checkLabelInputAssociation; cbv zeta.
  destruct (labelFors_total s) as [labelFors ->].
  destruct (inputIds_total s (orEmpty (matchG inputIdPattern s)))
    as [inputIds ->]; [intros m; apply orEmpty_sound|].
  simpl; eauto.
Qed.

Theorem validateAllRequirements_total (s : text) :
  exists t, validateAllRequirements s = Some t /\ map fst t = ruleNames.
Proof.
  unfold validateAllRequirements.
  destruct (checkLabelInputAssociation_total s) as [b ->].
  cbn [bind]; eexists; split; reflexivity.
Qed.

End ResultShape.

(* ================================================================= *)
(** ** Telling the diagnostics apart *)

Section Diagnostics.

Lemma labelDiag_first (id : text) : firstChar (labelDiag id) = "L"%char.
Proof. reflexivity. Qed.

Lemma requiredDiag_first (ty : text) : firstChar (requiredDiag ty) = "I"%char.
Proof. reflexivity. Qed.

Lemma labelDiag_not_email (d : text) : isLabelDiag d -> d <> emailDiag.
Proof.
  intros [id ->] E; apply (f_equal firstChar) in E.
  rewrite labelDiag_first in E; vm_compute in E; discriminate.
Qed.

Lemma requiredDiag_not_email (d : text) : isRequiredDiag d -> d <> emailDiag.
Proof.
  intros [ty ->] E; apply (f_equal firstChar) in E.
  rewrite requiredDiag_first in E; vm_compute in E; discriminate.
Qed.

Lemma labelDiag_not_void (id : text) : labelDiag id <> voidDiag.
Proof.
  intros E; apply (f_equal firstChar) in E.
  rewrite labelDiag_first in E; vm_compute in E; discriminate.
Qed.

Lemma labelDiag_not_required (id ty : text) : labelDiag id <> requiredDiag ty.
Proof.
  intros E; apply (f_equal firstChar) in E.
  rewrite labelDiag_first, requiredDiag_first in E; discriminate.
Qed.

Lemma labelDiag_not_emailDiag (id : text) : labelDiag id <> emailDiag.
Proof. apply labelDiag_not_email; exists id; reflexivity. Qed.

Lemma not_in_Forall_neq (x : text) (l : list text) :
  Forall (fun d => d <> x) l -> ~ In x l.
Proof.
  intros F I; rewrite Forall_forall in F; exact (F x I eq_refl).
Qed.

(** The email diagnostic can only come from the last check. *)
Lemma emailDiag_iff (s : text) (errs : list text) :
  validateFormStructure s = Some errs ->
  (In emailDiag errs <-> includes s (lit "type='email'") = false).
Proof.
  destruct (validateFormStructure_shape s) as (lp & rp & -> & FL & FR).
  intros [= <-].
  assert (NL : ~ In emailDiag lp).
  { apply not_in_Forall_neq; revert FL; apply Forall_impl.
    apply labelDiag_not_email. }
  assert (NR : ~ In emailDiag rp).
  { apply not_in_Forall_neq; revert FR; apply Forall_impl.
    apply requiredDiag_not_email. }
  assert (NV : ~ In emailDiag
                    (if includes s (lit "</input>") then [voidDiag] else [])).
  { destruct (includes s (lit "</input>")); simpl; [|tauto].
    intros [E | []]; vm_compute in E; discriminate. }
  rewrite !in_app_iff.
  destruct (includes s (lit "type='email'")); simpl; split;
    try tauto; try discriminate; auto.
Qed.

Lemma hasEmailInput_includes (s : text) :
  hasEmailInput s -> includes s (lit "type='email'") = true.
Proof.
  intros (pre & a & b & post & -> & _).
  apply includes_iff.
  exists (pre ++ lit "<input" ++ a), (b ++ lit ">" ++ post).
  repeat rewrite <- app_assoc; reflexivity.
Qed.

End Diagnostics.

(* ================================================================= *)
(** ** Label targets the validator does report *)

Section Orphans.

(** When at least one input of the markup has an id, every label target
    without an input of that id is named by a diagnostic. *)
Lemma orphans_reported_with_ids (s : text) :
  matchG inputIdPattern s <> None -> orphansReported s.
Proof.
  intros NI labelIds inputIds EL EI.
  destruct (matchG labelPattern s) as [lm|] eqn:ML.
  - destruct (matchG inputIdPattern s) as [im|] eqn:MI; [|congruence].
    simpl in EL, EI.
    unfold validateFormStructure; cbv zeta; rewrite ML, MI, EL, EI.
    cbn [bind].
    rewrite (forEach_filter (fun id => negb (arrayIncludes inputIds id))
                            labelDiag).
    cbn [bind].
    match goal with
    | |- context [matchG requiredInputPattern s] =>
        match goal with
        | |- context [forEach _ _ ?e] =>
            destruct (required_step s e) as (rp & -> & _)
        end
    end.
    cbn [bind]; eexists; split; [reflexivity|].
    intros id I N.
    assert (In (labelDiag id)
               (map labelDiag
                    (filter (fun id => negb (arrayIncludes inputIds id))
                            labelIds))) as M.
    { apply in_map, filter_In; split; [exact I|].
      destruct (arrayIncludes inputIds id) eqn:A; [|reflexivity].
      apply arrayIncludes_In in A; contradiction. }
    destruct (negb (includes s (lit "type='email'")));
      rewrite ?in_app_iff; auto.
  - simpl in EL; injection EL as <-.
    destruct (validateFormStructure_total s) as [errs E].
    exists errs; split; [exact E | intros id []].
Qed.

End Orphans.

(* ================================================================= *)
(** ** Facts about the fixer *)

Section FixerFacts.

(** Without a match the text is returned as it is, whatever the
    replacement string. *)
Lemma replaceFrom_no_match (r : regex) (repl : text) : forall s skip,
  scan r s skip = [] -> Java.replaceFrom r repl s skip = inr (skipn skip s).
Proof.
  induction s as [|c s IH]; intros skip H; simpl in *.
  - destruct skip; [|reflexivity].
    destruct (matchHere r []); [discriminate | reflexivity].
  - destruct skip as [|n].
    + destruct (matchHere r (c :: s)); [discriminate|].
      rewrite (IH 0 H); reflexivity.
    + apply IH; assumption.
Qed.

Lemma replaceAll_no_match (s : text) (r : regex) (repl : text) :
  scan r s 0 = [] -> Java.replaceAll s r repl = inr s.
Proof. apply replaceFrom_no_match. Qed.

(** A replacement whose expansion fails makes [replaceAll] fail as soon
    as the pattern matches anywhere. *)
Lemma replaceFrom_bad_replacement (r : regex) (repl : text) (e : Java.exn) :
  (forall m, Java.expand repl 0 m = inl e) ->
  forall s skip,
    scan r s skip <> [] -> Java.replaceFrom r repl s skip = inl e.
Proof.
  intros B; induction s as [|c s IH]; intros skip H; simpl in *.
  - destruct skip; [|congruence].
    destruct (matchHere r []); [apply B | congruence].
  - destruct skip as [|n].
    + destruct (matchHere r (c :: s)).
      * rewrite B; reflexivity.
      * rewrite (IH 0 H); reflexivity.
    + apply IH; assumption.
Qed.

(** The replacement for the amount field has a dollar sign followed by
    a closing parenthesis: it cannot be expanded. *)
Lemma amount_replacement_illegal (m : found) :
  Java.expand (snd (nth 1 Java.replacements (Lit [], []))) 0 m
  = inl Java.IllegalArgumentException.
Proof. reflexivity. Qed.

Lemma amount_rewrite_throws (s : text) :
  scan (fst (nth 1 Java.replacements (Lit [], []))) s 0 <> [] ->
  Java.replaceAll s (fst (nth 1 Java.replacements (Lit [], [])))
                  (snd (nth 1 Java.replacements (Lit [], [])))
  = inl Java.IllegalArgumentException.
Proof.
  apply replaceFrom_bad_replacement, amount_replacement_illegal.
Qed.

(** Markup none of the five patterns matches is left alone. *)
Lemma fixFormHTML_no_match (s : text) :
  scan (Lit (lit "</input>")) s 0 = [] ->
  scan (Lit (lit "<input type='text' name='email'>")) s 0 = [] ->
  Forall (fun p => scan (fst p) s 0 = []) Java.replacements ->
  Java.fixFormHTML s = inr s.
Proof.
  intros H1 H2 H3; unfold Java.fixFormHTML; cbv zeta.
  rewrite (replaceAll_no_match _ _ _ H1); cbn [Java.bindR].
  rewrite (replaceAll_no_match _ _ _ H2); cbn [Java.bindR].
  induction H3 as [|p l Hp _ IH]; simpl; [reflexivity|].
  rewrite (replaceAll_no_match _ _ _ Hp); exact IH.
Qed.

End FixerFacts.

(* ================================================================= *)
(** ** The validator's Java copy *)

Section JavaCopy.

Variable enumerate : list text -> list text.
Hypothesis enumerate_spec : enumerates enumerate.

Lemma enumerate_nil : enumerate [] = [].
Proof.
  destruct (enumerate []) as [|x l] eqn:E; [reflexivity|].
  destruct (proj1 (enumerate_spec [] x)); rewrite E; left; reflexivity.
Qed.

Lemma fold_left_push_filter {A} (test : A -> bool) (msg : A -> text)
      (l : list A) : forall errors,
  fold_left (fun errs x => if test x then errs ++ [msg x] else errs) l errors
  = errors ++ map msg (filter test l).
Proof.
  induction l as [|a l IH]; simpl; intros errors.
  - rewrite app_nil_r; reflexivity.
  - destruct (test a); rewrite IH; [|reflexivity].
    rewrite <- app_assoc; reflexivity.
Qed.

Lemma fold_left_keeps {A} (f : list text -> A -> list text) :
  (forall e x, exists d, f e x = e ++ d) ->
  forall l e, exists d, fold_left f l e = e ++ d.
Proof.
  intros F; induction l as [|a l IH]; simpl; intros e.
  - exists []; rewrite app_nil_r; reflexivity.
  - destruct (F e a) as [d ->]; destruct (IH (e ++ d)) as [d' ->].
    exists (d ++ d'); rewrite app_assoc; reflexivity.
Qed.

Lemma filter_none {A} (test : A -> bool) (l : list A) :
  (forall x, In x l -> test x = false) -> filter test l = [].
Proof.
  induction l as [|a l IH]; simpl; intros H; [reflexivity|].
  rewrite (H a (or_introl eq_refl)); apply IH; auto.
Qed.

(** The Java copy has no guard around the association check: every label
    target without an input of that id is reported. *)
Theorem java_orphans_reported (s id : text) :
  In id (Java.collectGroup1 labelPattern s) ->
  ~ In id (Java.collectGroup1 inputIdPattern s) ->
  In (labelDiag id) (Java.validateFormStructure enumerate s).
Proof.
  intros I N; unfold Java.validateFormStructure; cbv zeta.
  rewrite (fold_left_push_filter
             (fun labelId =>
                negb (arrayIncludes (Java.collectGroup1 inputIdPattern s) labelId))
             labelDiag).
  match goal with
  | |- In _ (if _ then fold_left ?f ?l ?e0 ++ _ else _) =>
      assert (K : forall errs m, exists d, f errs m = errs ++ d);
        [|destruct (fold_left_keeps f K l e0) as [d ->]]
  end.
  - intros e m; cbv zeta.
    destruct (negb (includes (fst m) (lit "required")));
      [destruct (search typePattern (fst m))|]; eauto;
      exists []; rewrite app_nil_r; reflexivity.
  - assert (In (labelDiag id)
               (map labelDiag
                  (filter (fun labelId =>
                             negb (arrayIncludes
                                     (Java.collectGroup1 inputIdPattern s) labelId))
                          (enumerate (Java.collectGroup1 labelPattern s))))) as M.
    { apply in_map, filter_In; split; [apply enumerate_spec, I|].
      destruct (arrayIncludes _ id) eqn:A; [|reflexivity].
      apply arrayIncludes_In in A; contradiction. }
    destruct (negb (includes s (lit "type='email'")));
      rewrite ?in_app_iff; auto.
Qed.

(** On the input the JavaScript validator is silent about, the Java copy
    names the orphaned target. *)
Theorem java_orphan_label_reported :
  In (labelDiag (lit "fullName"))
     (Java.validateFormStructure enumerate labelWithoutInputId).
Proof.
  apply java_orphans_reported.
  - vm_compute; left; reflexivity.
  - vm_compute; intros [].
Qed.

(** The Java copy on the sample markup: the same five diagnostics. *)
Theorem java_copy_on_sample :
  Java.validateFormStructure enumerate Java.originalHTML
  = [voidDiag; requiredDiag (lit "text"); requiredDiag (lit "text");
     requiredDiag (lit "number"); emailDiag].
Proof.
  unfold Java.validateFormStructure; cbv zeta.
  replace (Java.collectGroup1 labelPattern Java.originalHTML) with (@nil text)
    by (vm_compute; reflexivity).
  rewrite enumerate_nil; vm_compute; reflexivity.
Qed.

(** The Java copy on the reference markup: nothing to report. *)
Theorem java_copy_on_reference :
  Java.validateFormStructure enumerate Java.generateCorrectedHTML = [].
Proof.
  unfold Java.validateFormStructure; cbv zeta.
  rewrite (fold_left_push_filter
             (fun labelId =>
                negb (arrayIncludes
                        (Java.collectGroup1 inputIdPattern
                                            Java.generateCorrectedHTML)
                        labelId))
             labelDiag).
  rewrite filter_none.
  - vm_compute; reflexivity.
  - intros x I; apply (proj1 (enumerate_spec _ _)) in I.
    vm_compute in I.
    destruct I as [<- | [<- | [<- | [<- | []]]]]; vm_compute; reflexivity.
Qed.

End JavaCopy.

Section JavaChecklist.

Theorem java_checklist_on_reference :
  Java.validateAllRequirements Java.generateCorrectedHTML
  = map (fun name => (name, true)) Java.ruleNames.
Proof. vm_compute; reflexivity. Qed.

(** The keys of the Java checklist do not depend on the input. *)
Theorem java_checklist_keys (s : text) :
  Java.keySet (Java.validateAllRequirements s) = Java.ruleNames.
Proof. reflexivity. Qed.

End JavaChecklist.

(* ================================================================= *)
(** ** The association check on markup without label text *)

Section AssociationWithoutLabels.

Lemma no_label_for_text (s : text) :
  includes s (lit "<label for='") = false -> scan labelForPattern s 0 = [].
Proof.
  intros H; destruct (scan labelForPattern s 0) as [|[m g] l] eqn:E;
    [reflexivity|].
  assert (I : In (m, g) (scan labelForPattern s 0))
    by (rewrite E; left; reflexivity).
  destruct (scan_sound _ _ _ _ _ I) as (pre & post & -> & L).
  revert L; unfold labelForPattern; cbn [Lang].
  intros (u1 & u2 & -> & -> & _).
  assert (C : includes (pre ++ (lit "<label for='" ++ u2) ++ post)
                       (lit "<label for='") = true).
  { apply includes_iff; exists pre, (u2 ++ post).
    repeat rewrite <- app_assoc; reflexivity. }
  congruence.
Qed.

(** The Java copy of the association check: [true] on markup without the
    text [<label for='], and so is the [label_input_association] rule. *)
Theorem java_association_without_label_text (s : text) :
  includes s (lit "<label for='") = false ->
  Java.checkLabelInputAssociation s = true
  /\ Java.get "label_input_association" (Java.validateAllRequirements s)
     = Some true.
Proof.
  intros N.
  assert (C : Java.checkLabelInputAssociation s = true).
  { unfold Java.checkLabelInputAssociation; cbv zeta.
    unfold Java.collectGroup1; rewrite (no_label_for_text s N).
    reflexivity. }
  split; [exact C|].
  change (Java.get "label_input_association" (Java.validateAllRequirements s))
    with (Some (Java.checkLabelInputAssociation s)).
  rewrite C; reflexivity.
Qed.

(** The Java copy on the label start tag cut off before its [>]:
    [false], as in basic.js. *)
Theorem java_copy_on_unclosed_label :
  Java.checkLabelInputAssociation unclosedLabel = false
  /\ Java.get "label_input_association"
              (Java.validateAllRequirements unclosedLabel) = Some false.
Proof. split; vm_compute; reflexivity. Qed.

End AssociationWithoutLabels.

(* ================================================================= *)
(** ** The claims *)

Section Claims.

(** C1 (as stated, refuted): on the sample markup the validator's
    result does not contain label diagnostics for two field identifiers;
    it contains no label diagnostic at all, the sample having no label
    element. *)
Lemma sample_lacks_label_diagnostics :
  ~ exists errs,
      validateFormStructure originalHTML = Some errs
      /\ sampleDiagnostics errs.
Proof.
  intros (errs & E & _ & _ & _ & a & b & _ & Ia & _).
  vm_compute in E; injection E as <-.
  change (In (labelDiag a)
             [voidDiag; requiredDiag (lit "text"); requiredDiag (lit "text");
              requiredDiag (lit "number"); emailDiag]) in Ia.
  destruct Ia as [E | [E | [E | [E | [E | []]]]]]; symmetry in E; revert E.
  - apply labelDiag_not_void.
  - apply labelDiag_not_required.
  - apply labelDiag_not_required.
  - apply labelDiag_not_required.
  - apply labelDiag_not_emailDiag.
Qed.

(** C1 (amended): on the sample markup the validator returns five
    diagnostics: the void-closing-tag diagnostic, a required-attribute
    diagnostic for each of the two text inputs and the number input, and
    the email-type diagnostic; none of them is a label diagnostic. *)
Theorem sample_diagnostics :
  exists errs,
    validateFormStructure originalHTML = Some errs
    /\ errs = [voidDiag; requiredDiag (lit "text"); requiredDiag (lit "text");
               requiredDiag (lit "number"); emailDiag]
    /\ errs <> []
    /\ In voidDiag errs
    /\ In emailDiag errs
    /\ forall id, ~ In (labelDiag id) errs.
Proof.
  eexists; split; [vm_compute; reflexivity|].
  split; [reflexivity|].
  split; [discriminate|].
  split; [left; reflexivity|].
  split; [do 4 right; left; reflexivity|].
  intros id I.
  change (In (labelDiag id)
             [voidDiag; requiredDiag (lit "text"); requiredDiag (lit "text");
              requiredDiag (lit "number"); emailDiag]) in I.
  destruct I as [E | [E | [E | [E | [E | []]]]]]; symmetry in E; revert E.
  - apply labelDiag_not_void.
  - apply labelDiag_not_required.
  - apply labelDiag_not_required.
  - apply labelDiag_not_required.
  - apply labelDiag_not_emailDiag.
Qed.

(** C2 (the code fails the claim): [fixFormHTML] on the sample markup
    does not return a string; the rewrite of the amount field raises
    [IllegalArgumentException], whether the sample literal is read as a
    text block or as it stands. *)
Theorem fix_sample_throws :
  Java.fixFormHTML Java.originalHTML = inl Java.IllegalArgumentException
  /\ Java.fixFormHTML originalHTML = inl Java.IllegalArgumentException.
Proof. split; vm_compute; reflexivity. Qed.

(** C3 (the code fails the claim): a label whose target has no input
    with that id goes unreported when no input of the markup has an id;
    the association check of the same class sees the orphan. *)
Theorem orphan_label_unreported :
  validateFormStructure labelWithoutInputId = Some [emailDiag]
  /\ checkLabelInputAssociation labelWithoutInputId = Some false
  /\ ~ orphansReported labelWithoutInputId.
Proof.
  split; [vm_compute; reflexivity|].
  split; [vm_compute; reflexivity|].
  intros H.
  destruct (H [lit "fullName"] []) as (errs & E & R);
    try (vm_compute; reflexivity).
  assert (I : In (labelDiag (lit "fullName")) errs).
  { apply R; [left; reflexivity | intros []]. }
  vm_compute in E; injection E as <-.
  destruct I as [E | []]; revert E.
  change (emailDiag <> labelDiag (lit "fullName")).
  intros E; symmetry in E; revert E; apply labelDiag_not_emailDiag.
Qed.

(** C4: the validator finds nothing to report in the reference
    markup. *)
Theorem reference_has_no_diagnostics :
  validateFormStructure generateCorrectedHTML = Some [].
Proof. vm_compute; reflexivity. Qed.

(** C5: every rule of the checklist is [true] for the reference
    markup. *)
Theorem reference_passes_every_rule :
  validateAllRequirements generateCorrectedHTML
  = Some (map (fun name => (name, true)) ruleNames).
Proof. vm_compute; reflexivity. Qed.

(** C6 (the code fails the claim): the first pass over the sample already
    raises, so neither [fixFormHTML(originalHTML)] nor the second pass has
    a value to compare, whether the sample literal is read as a text
    block or as it stands. *)
Theorem fix_twice_sample_throws :
  fixTwice Java.originalHTML = inl Java.IllegalArgumentException
  /\ fixTwice originalHTML = inl Java.IllegalArgumentException
  /\ forall fixed, Java.fixFormHTML Java.originalHTML <> inr fixed
                   /\ Java.fixFormHTML originalHTML <> inr fixed.
Proof.
  split; [vm_compute; reflexivity|].
  split; [vm_compute; reflexivity|].
  intros fixed; split; intros E; vm_compute in E; discriminate.
Qed.

(** C7 (as stated, refuted): markup can mention [type='email'] outside
    any input element; no input carries the email variant then, and yet
    the diagnostic is absent. *)
Lemma email_mentioned_outside_input :
  ~ emailDiagnosticTracksInputs emailMentionedInText.
Proof.
  intros [H _]; destruct H as (errs & E & I).
  - intros (pre & a & b & post & E & _).
    assert (C : includes emailMentionedInText (lit "<input") = true).
    { apply includes_iff; eexists pre, _; exact E. }
    vm_compute in C; discriminate.
  - vm_compute in E; injection E as <-; contradiction.
Qed.

(** C7 (amended): the email diagnostic is in the result exactly when the
    markup nowhere contains the text [type='email']; so it is absent
    whenever some input element has [type='email']. *)
Theorem email_diagnostic_iff_no_mention (s : text) :
  exists errs,
    validateFormStructure s = Some errs
    /\ (In emailDiag errs <-> includes s (lit "type='email'") = false)
    /\ (hasEmailInput s -> ~ In emailDiag errs).
Proof.
  destruct (validateFormStructure_total s) as [errs E].
  exists errs; split; [exact E|].
  pose proof (emailDiag_iff s errs E) as Iff.
  split; [exact Iff|].
  intros H I; apply Iff in I.
  rewrite (hasEmailInput_includes s H) in I; discriminate.
Qed.

(** C8: whatever the two inputs, both checklists are returned and have
    the same keys, the fixed rule names, each once. *)
Theorem rule_names_fixed (s1 s2 : text) :
  exists t1 t2,
    validateAllRequirements s1 = Some t1
    /\ validateAllRequirements s2 = Some t2
    /\ map fst t1 = map fst t2
    /\ map fst t1 = ruleNames
    /\ NoDup ruleNames.
Proof.
  destruct (validateAllRequirements_total s1) as (t1 & E1 & K1).
  destruct (validateAllRequirements_total s2) as (t2 & E2 & K2).
  exists t1, t2; repeat split; try assumption; [congruence|].
  unfold ruleNames; repeat constructor; simpl; intuition discriminate.
Qed.

(** C9 (as stated, refuted): a label start tag cut off before its [>]
    is no label element, and yet its [for] target is read by the
    association check, which returns [false] when no input has that
    id. *)
Lemma unclosed_label_fails_association :
  ~ associationHoldsWithoutLabels unclosedLabel.
Proof.
  intros H; destruct H as [C _].
  - intros (pre & a & b & post & E & _).
    assert (I : includes unclosedLabel (lit ">") = true).
    { apply includes_iff.
      exists (pre ++ lit "<label" ++ a ++ lit "for='" ++ b), post.
      rewrite E; repeat rewrite <- app_assoc; reflexivity. }
    vm_compute in I; discriminate.
  - vm_compute in C; discriminate.
Qed.

(** C9 (amended): for markup that nowhere contains the text
    [<label for='] (the empty markup included), the association check
    returns [true], and so does the [labelInputAssociation] rule of the
    checklist. *)
Theorem no_label_text_association_holds (s : text) :
  includes s (lit "<label for='") = false ->
  checkLabelInputAssociation s = Some true
  /\ exists t, validateAllRequirements s = Some t
               /\ getRule "labelInputAssociation" t = Some true.
Proof.
  intros N.
  assert (C : checkLabelInputAssociation s = Some true).
  { unfold checkLabelInputAssociation; cbv zeta.
    unfold matchG at 1; rewrite (no_label_for_text s N).
    cbn [orEmpty mapM bind].
    destruct (inputIds_total s (orEmpty (matchG inputIdPattern s)))
      as [inputIds ->]; [intros m; apply orEmpty_sound|].
    reflexivity. }
  split; [exact C|].
  unfold validateAllRequirements; rewrite C; cbn [bind].
  eexists; split; reflexivity.
Qed.

(** C9 (amended) at the empty markup and at the sample markup, which has
    no label at all. *)
Lemma no_label_text_association_holds_empty_and_sample :
  (includes [] (lit "<label for='") = false
   /\ checkLabelInputAssociation [] = Some true
   /\ exists t, validateAllRequirements [] = Some t
                /\ getRule "labelInputAssociation" t = Some true)
  /\ (includes originalHTML (lit "<label for='") = false
      /\ checkLabelInputAssociation originalHTML = Some true
      /\ exists t, validateAllRequirements originalHTML = Some t
                   /\ getRule "labelInputAssociation" t = Some true).
Proof.
  assert (H0 : includes [] (lit "<label for='") = false) by reflexivity.
  assert (H1 : includes originalHTML (lit "<label for='") = false)
    by (vm_compute; reflexivity).
  split.
  - split; [exact H0 | apply (no_label_text_association_holds [] H0)].
  - split; [exact H1 | apply (no_label_text_association_holds _ H1)].
Defined.

(** C10: the fixer returns the reference markup unchanged, whether the
    literal is read as a text block or as it stands. *)
Theorem reference_is_fixed_point :
  Java.fixFormHTML Java.generateCorrectedHTML = inr Java.generateCorrectedHTML
  /\ Java.fixFormHTML generateCorrectedHTML = inr generateCorrectedHTML.
Proof. split; vm_compute; reflexivity. Qed.

End Claims.

(* ================================================================= *)
(** ** More about the matcher *)

Section MatcherMore.

(** A pattern that occurs in the text is found by the scan. *)
Lemma scan_found (r : regex) (u post : text) : forall pre,
  Lang r u -> scan r (pre ++ u ++ post) 0 <> [].
Proof.
  intros pre L; induction pre as [|c pre IH].
  - destruct (matchHere_complete r u post L) as [m E]; simpl.
    destruct (u ++ post); simpl; rewrite E; discriminate.
  - simpl; destruct (matchHere r (c :: pre ++ u ++ post));
      [discriminate | exact IH].
Qed.

Lemma scan_literal_none (p s : text) :
  includes s p = false -> scan (Lit p) s 0 = [].
Proof.
  intros H; destruct (scan (Lit p) s 0) as [|[m g] l] eqn:E; [reflexivity|].
  assert (I : In (m, g) (scan (Lit p) s 0)) by (rewrite E; left; reflexivity).
  destruct (scan_sound _ _ _ _ _ I) as (pre & post & -> & L).
  simpl in L; subst m.
  assert (C : includes (pre ++ p ++ post) p = true)
    by (apply includes_iff; eauto).
  congruence.
Qed.

Lemma scan_literal_some (p s : text) :
  includes s p = true -> scan (Lit p) s 0 <> [].
Proof.
  intros H; apply includes_iff in H; destruct H as (pre & post & ->).
  apply scan_found; reflexivity.
Qed.

(** The matched texts of a global match, null or not. *)
Lemma orEmpty_matchG (r : regex) (s : text) :
  orEmpty (matchG r s) = map fst (scan r s 0).
Proof. unfold matchG; destruct (scan r s 0); reflexivity. Qed.

(** Where group 1 of a pattern [a(r1)b] comes from. *)
Lemma matchAt_capture (a b : text) (r1 : regex) (s : text) g rest :
  In (g, rest) (matchAt (Cat (Lit a) (Cat (Group r1) (Lit b))) s) ->
  exists x g', g = Some x :: g' /\ s = a ++ x ++ b ++ rest /\ Lang r1 x.
Proof.
  intros H; simpl in H.
  apply in_flat_map in H; destruct H as ([g1 s1] & H1 & H).
  destruct (startsWith s a) eqn:W; [|contradiction].
  destruct H1 as [E | []]; injection E as <- <-.
  apply in_map_iff in H; destruct H as ([g2 s2] & E & H2).
  simpl in E; injection E as <- <-.
  apply in_flat_map in H2; destruct H2 as ([g3 s3] & H3 & H4).
  apply in_map_iff in H3; destruct H3 as ([g5 s5] & E & H5).
  simpl in E; injection E as <- <-.
  simpl in H4.
  destruct (startsWith s5 b) eqn:W'; [|contradiction].
  destruct H4 as [E | []]; injection E as <- <-.
  destruct (matchAt_sound _ _ _ _ H5) as (x & Ex & Lx).
  simpl in Ex.
  apply startsWith_split in W, W'.
  exists x, (g5 ++ []); split; [|split; [|exact Lx]].
  - rewrite Ex, firstn_minus_app; reflexivity.
  - rewrite W at 1; rewrite Ex; rewrite W' at 1; reflexivity.
Qed.

(** [s.match(a(r1)b)[1]]: the text of group 1 stands in [s] between [a]
    and [b]. *)
Lemma matchGroup1_sound (a b : text) (r1 : regex) (s x : text) :
  matchGroup1 (Cat (Lit a) (Cat (Group r1) (Lit b))) s = Some x ->
  Lang r1 x /\ exists pre post, s = pre ++ a ++ x ++ b ++ post.
Proof.
  unfold matchGroup1.
  destruct (search (Cat (Lit a) (Cat (Group r1) (Lit b))) s)
    as [[m g]|] eqn:E; [|discriminate].
  destruct (search_sound _ _ _ _ E) as (pre & post & -> & _ & I).
  destruct (matchAt_capture _ _ _ _ _ _ I) as (y & g' & -> & Em & Ly).
  intros [= <-]; split; [exact Ly|].
  exists pre, post; rewrite Em; reflexivity.
Qed.

Lemma mapM_In {A B} (f : A -> option B) (l : list A) : forall ys y,
  mapM f l = Some ys -> In y ys -> exists x, In x l /\ f x = Some y.
Proof.
  induction l as [|a l IH]; simpl; intros ys y E I.
  - injection E as <-; contradiction.
  - destruct (f a) as [b|] eqn:Fa; [|discriminate]; simpl in E.
    destruct (mapM f l) as [bs|]; [|discriminate]; simpl in E.
    injection E as <-; destruct I as [<- | I].
    + exists a; auto.
    + destruct (IH bs y eq_refl I) as (x & Ix & Fx); eauto.
Qed.

(** A loop whose body pushes [h x] for the element [x]. *)
Lemma forEach_flat {A} (h : A -> list text)
      (body : A -> list text -> option (list text)) (arr : list A) :
  (forall x e, In x arr -> body x e = Some (e ++ h x)) ->
  forall errors, forEach body arr errors = Some (errors ++ flat_map h arr).
Proof.
  induction arr as [|a arr IH]; simpl; intros H errors.
  - rewrite app_nil_r; reflexivity.
  - rewrite (H a errors (or_introl eq_refl)); simpl.
    rewrite (IH (fun x e I => H x e (or_intror I))).
    rewrite <- app_assoc; reflexivity.
Qed.

Lemma fold_left_flat {A} (h : A -> list text)
      (f : list text -> A -> list text) :
  (forall e x, f e x = e ++ h x) ->
  forall l e, fold_left f l e = e ++ flat_map h l.
Proof.
  intros F; induction l as [|a l IH]; simpl; intros e.
  - rewrite app_nil_r; reflexivity.
  - rewrite F, IH, <- app_assoc; reflexivity.
Qed.


End MatcherMore.

(* ================================================================= *)
(** ** The parts of a result, exactly *)

Section ResultParts.

Lemma labelDiag_inj (a b : text) : labelDiag a = labelDiag b -> a = b.
Proof.
  unfold labelDiag; intros E.
  apply app_inv_head in E; apply app_inv_tail in E; exact E.
Qed.

Lemma requiredDiag_inj (a b : text) : requiredDiag a = requiredDiag b -> a = b.
Proof.
  unfold requiredDiag; intros E.
  apply app_inv_head in E; apply app_inv_tail in E; exact E.
Qed.

Lemma requiredDiag_not_void (ty : text) : requiredDiag ty <> voidDiag.
Proof.
  intros E; apply (f_equal firstChar) in E.
  rewrite requiredDiag_first in E; vm_compute in E; discriminate.
Qed.

Lemma void_not_email : voidDiag <> emailDiag.
Proof. intros E; vm_compute in E; discriminate. Qed.

Lemma requiredMessages_kind (input : text) :
  Forall isRequiredDiag (requiredMessages input).
Proof.
  unfold requiredMessages.
  destruct (negb (includes input (lit "required"))); [|constructor].
  destruct (matchGroup1 typePattern input) as [ty|]; [|constructor].
  repeat constructor; exists ty; reflexivity.
Qed.

Lemma flat_map_fst {A B C} (h : A -> list C) (l : list (A * B)) :
  flat_map (fun m => h (fst m)) l = flat_map h (map fst l).
Proof.
  induction l as [|a l IH]; simpl; [reflexivity | rewrite IH; reflexivity].
Qed.

Lemma label_step_exact (s : text) (errors : list text) :
  exists labelPart,
    match matchG labelPattern s, matchG inputIdPattern s with
    | Some lm, Some im =>
        labelIds <- mapM (matchGroup1 forPattern) lm ;;
        inputIds <- mapM (matchGroup1 idPattern) im ;;
        forEach (fun id errs =>
                   if negb (arrayIncludes inputIds id)
                   then Some (errs ++ [labelDiag id])
                   else Some errs)
                labelIds errors
    | _, _ => Some errors
    end = Some (errors ++ labelPart)
    /\ labelPartOf s labelPart.
Proof.
  unfold labelPartOf.
  destruct (matchG labelPattern s) as [lm|] eqn:EL;
    [destruct (matchG inputIdPattern s) as [im|] eqn:EI|];
    try (exists []; rewrite app_nil_r; split; reflexivity).
  destruct (labelIds_total s lm) as [labelIds E1];
    [intros m; apply matchG_sound; assumption|].
  destruct (inputIds_total s im) as [inputIds E2];
    [intros m; apply matchG_sound; assumption|].
  rewrite E1, E2; cbn [bind].
  rewrite (forEach_filter (fun id => negb (arrayIncludes inputIds id))
                          labelDiag).
  eexists; split; [reflexivity|].
  exists labelIds, inputIds; auto.
Qed.

Lemma required_step_exact (s : text) (errors : list text) :
  match matchG requiredInputPattern s with
  | Some ri =>
      forEach (fun input errs =>
                 if negb (includes input (lit "required"))
                 then ty <- matchGroup1 typePattern input ;;
                      Some (errs ++ [requiredDiag ty])
                 else Some errs)
              ri errors
  | None => Some errors
  end
  = Some (errors
          ++ flat_map requiredMessages
                      (orEmpty (matchG requiredInputPattern s))).
Proof.
  destruct (matchG requiredInputPattern s) as [ri|] eqn:ER; simpl;
    [|rewrite app_nil_r; reflexivity].
  apply forEach_flat; intros input e I; unfold requiredMessages.
  destruct (negb (includes input (lit "required")));
    [|rewrite app_nil_r; reflexivity].
  destruct (matchG_sound _ _ _ _ ER I) as (_ & _ & _ & L).
  destruct (matchGroup1_total typePattern input eq_refl
                              (requiredInput_has_type _ L)) as [ty ->].
  reflexivity.
Qed.

Lemma validateFormStructure_parts (s : text) :
  exists labelPart,
    validateFormStructure s
    = Some ((if includes s (lit "</input>") then [voidDiag] else [])
            ++ labelPart
            ++ flat_map requiredMessages
                        (orEmpty (matchG requiredInputPattern s))
            ++ (if negb (includes s (lit "type='email'"))
                then [emailDiag] else []))
    /\ labelPartOf s labelPart.
Proof.
  unfold validateFormStructure; cbv zeta.
  set (e0 := if includes s (lit "</input>") then [] ++ [voidDiag] else []).
  destruct (label_step_exact s e0) as (labelPart & -> & LP).
  cbn [bind].
  rewrite (required_step_exact s (e0 ++ labelPart)).
  cbn [bind].
  exists labelPart; split; [|exact LP].
  f_equal; subst e0.
  destruct (includes s (lit "</input>"));
    destruct (negb (includes s (lit "type='email'")));
    cbn [app]; repeat rewrite <- app_assoc; rewrite ?app_nil_r; reflexivity.
Qed.

Lemma labelPartOf_kind (s : text) (lp : list text) :
  labelPartOf s lp -> Forall isLabelDiag lp.
Proof.
  unfold labelPartOf.
  destruct (matchG labelPattern s); [destruct (matchG inputIdPattern s)|];
    try (intros ->; constructor).
  intros (labelIds & inputIds & _ & _ & ->).
  apply Forall_forall; intros d I.
  apply in_map_iff in I; destruct I as (id & <- & _); exists id; reflexivity.
Qed.

(** The ids a label diagnostic can name stand in the markup after
    [for=]. *)
Lemma labelPartOf_source (s : text) (lp : list text) (id : text) :
  labelPartOf s lp -> In (labelDiag id) lp ->
  id <> [] /\ ~ In dquote id
  /\ includes s (lit "for='" ++ id ++ lit "'") = true.
Proof.
  unfold labelPartOf.
  destruct (matchG labelPattern s) as [lm|] eqn:EL;
    [destruct (matchG inputIdPattern s)|];
    try (intros ->; contradiction).
  intros (labelIds & inputIds & E1 & _ & ->) I.
  apply in_map_iff in I; destruct I as (id' & E & I).
  apply labelDiag_inj in E; subst id'.
  apply filter_In in I; destruct I as [I _].
  destruct (mapM_In _ _ _ _ E1 I) as (m & Im & G).
  destruct (matchG_sound _ _ _ _ EL Im) as (pre & post & -> & _).
  apply matchGroup1_sound in G; destruct G as ([N F] & pre' & post' & ->).
  split; [exact N|]; split.
  - intros D; rewrite Forall_forall in F; specialize (F _ D).
    vm_compute in F; discriminate.
  - apply includes_iff; exists (pre ++ pre'), (post' ++ post).
    repeat rewrite <- app_assoc; reflexivity.
Qed.

(** The Java loop over the inputs pushes the same messages. *)
Lemma java_required_body (errs : list text) (m : found) :
  (let inputTag := fst m in
   if negb (includes inputTag (lit "required"))
   then match search typePattern inputTag with
        | Some typeMatch => errs ++ [requiredDiag (Java.group1 typeMatch)]
        | None => errs
        end
   else errs)
  = errs ++ requiredMessages (fst m).
Proof.
  cbv zeta; unfold requiredMessages, matchGroup1.
  destruct (negb (includes (fst m) (lit "required")));
    [|rewrite app_nil_r; reflexivity].
  destruct (search typePattern (fst m)) as [[m' g]|] eqn:E;
    [|rewrite app_nil_r; reflexivity].
  destruct (search_sound _ _ _ _ E) as (pre & post & _ & _ & I).
  destruct (matchAt_firstGroupSet typePattern eq_refl _ _ _ I)
    as (x & g' & ->).
  reflexivity.
Qed.

Lemma java_parts (enumerate : list text -> list text) (s : text) :
  Java.validateFormStructure enumerate s
  = (if includes s (lit "</input>") then [voidDiag] else [])
    ++ map labelDiag
           (filter (fun labelId =>
                      negb (arrayIncludes
                              (Java.collectGroup1 inputIdPattern s) labelId))
                   (enumerate (Java.collectGroup1 labelPattern s)))
    ++ flat_map requiredMessages (orEmpty (matchG requiredInputPattern s))
    ++ (if negb (includes s (lit "type='email'")) then [emailDiag] else []).
Proof.
  unfold Java.validateFormStructure; cbv zeta.
  rewrite (fold_left_push_filter
             (fun labelId =>
                negb (arrayIncludes (Java.collectGroup1 inputIdPattern s)
                                    labelId))
             labelDiag).
  rewrite (fold_left_flat (fun m => requiredMessages (fst m)));
    [|intros e m; apply java_required_body].
  rewrite flat_map_fst, <- orEmpty_matchG.
  destruct (includes s (lit "</input>"));
    destruct (negb (includes s (lit "type='email'")));
    cbn [app]; repeat rewrite <- app_assoc; rewrite ?app_nil_r; reflexivity.
Qed.

End ResultParts.

(* ================================================================= *)
(** ** More about the fixer *)

Section FixerMore.

(** A replacement that always expands to [out]: [replaceAll] returns,
    and [out] stands in the result as soon as the pattern matched. *)
Lemma replaceFrom_const (r : regex) (repl out : text) :
  (forall m, Java.expand repl 0 m = inr out) ->
  forall s skip, exists t,
    Java.replaceFrom r repl s skip = inr t
    /\ (scan r s skip <> [] -> includes t out = true).
Proof.
  intros X; induction s as [|c s IH]; intros skip; simpl.
  - destruct skip; [|exists []; split; [reflexivity | congruence]].
    destruct (matchHere r []).
    + exists out; split; [apply X|]; intros _.
      apply includes_iff; exists [], []; rewrite app_nil_r; reflexivity.
    + exists []; split; [reflexivity | congruence].
  - destruct skip as [|n]; [|apply IH].
    destruct (matchHere r (c :: s)) as [m|].
    + rewrite X; simpl.
      destruct (IH (length (fst m) - 1)) as (tl & -> & _); simpl.
      eexists; split; [reflexivity|]; intros _.
      apply includes_iff; exists []; eexists; reflexivity.
    + destruct (IH 0) as (tl & -> & I); simpl.
      exists (c :: tl); split; [reflexivity|]; intros N.
      apply includes_iff; apply I, includes_iff in N.
      destruct N as (pre & post & ->); exists (c :: pre), post; reflexivity.
Qed.

(** Erasing the matches of a pattern that never matches the empty text:
    the result is no longer than the input, and shorter as soon as the
    pattern matched. *)
Lemma replaceFrom_erase (r : regex) :
  (forall s m, matchHere r s = Some m -> fst m <> []) ->
  forall s skip, exists t,
    Java.replaceFrom r [] s skip = inr t
    /\ length t <= length s - skip
    /\ (scan r s skip <> [] -> length t < length s - skip).
Proof.
  intros NE; induction s as [|c s IH]; intros skip; simpl.
  - assert (M : matchHere r [] = None).
    { destruct (matchHere r []) as [[m g]|] eqn:E; [|reflexivity].
      destruct (matchHere_sound _ _ _ _ E) as (rest & E' & _).
      symmetry in E'; apply app_eq_nil in E'; destruct E' as [-> _].
      destruct (NE _ _ E); reflexivity. }
    rewrite M; destruct skip;
      (exists []; repeat split; [simpl; lia | congruence]).
  - destruct skip as [|n].
    + destruct (matchHere r (c :: s)) as [[m g]|] eqn:E.
      * pose proof (NE _ _ E) as N; cbn [fst] in *.
        destruct (IH (length m - 1)) as (tl & -> & B & _); simpl.
        destruct m as [|x m]; [congruence|].
        exists tl; repeat split; simpl; lia.
      * destruct (IH 0) as (tl & -> & B & S); simpl.
        exists (c :: tl); repeat split; [simpl; lia|].
        intros N; specialize (S N); simpl; lia.
    + destruct (IH n) as (tl & -> & B & S).
      exists tl; repeat split; [lia|].
      intros N; specialize (S N); lia.
Qed.

Lemma literal_match_nonempty (p : text) :
  p <> [] -> forall s m, matchHere (Lit p) s = Some m -> fst m <> [].
Proof.
  intros N s [m g] E.
  destruct (matchHere_sound _ _ _ _ E) as (rest & _ & L & _).
  simpl in *; congruence.
Qed.

(** [fixFormHTML] as its five rewrites in a row. *)
Lemma fixFormHTML_steps (s : text) :
  Java.fixFormHTML s
  = Java.bindR (Java.replaceAll s (Lit closingTag) [])
      (fun t1 =>
         Java.bindR (Java.replaceAll t1 (Lit emailInput) emailInputFixed)
           (fun t2 =>
              Java.bindR
                (Java.bindR
                   (Java.replaceAll t2 (fst nameRewrite) (snd nameRewrite))
                   (fun t3 => Java.replaceAll t3 (fst amountRewrite)
                                              (snd amountRewrite)))
                (fun t4 => Java.replaceAll t4 (fst newsletterRewrite)
                                           (snd newsletterRewrite)))).
Proof. reflexivity. Qed.

Lemma expand_empty (m : found) : Java.expand [] 0 m = inr [].
Proof. reflexivity. Qed.

Lemma expand_email (m : found) :
  Java.expand emailInputFixed 0 m = inr emailInputFixed.
Proof. reflexivity. Qed.

Lemma expand_name (m : found) :
  Java.expand (snd nameRewrite) 0 m = inr nameInserted.
Proof. reflexivity. Qed.

Lemma expand_newsletter (m : found) :
  exists out, Java.expand (snd newsletterRewrite) 0 m = inr out.
Proof. eexists; reflexivity. Qed.

Lemma newsletter_const :
  exists out, forall m, Java.expand (snd newsletterRewrite) 0 m = inr out.
Proof. eexists; intros m; reflexivity. Qed.

End FixerMore.

(* ================================================================= *)
(** ** Lemmas shared by the further properties *)

Section Shared.

Lemma in_parts_label (v lp rq e : list text) (id : text) :
  (v = [voidDiag] \/ v = []) -> Forall isRequiredDiag rq ->
  (e = [emailDiag] \/ e = []) ->
  In (labelDiag id) (v ++ lp ++ rq ++ e) -> In (labelDiag id) lp.
Proof.
  intros V R E I; rewrite !in_app_iff in I.
  destruct I as [I | [I | [I | I]]]; [exfalso | exact I | exfalso | exfalso].
  - destruct V as [-> | ->]; [|contradiction].
    destruct I as [I | []]; symmetry in I; revert I; apply labelDiag_not_void.
  - rewrite Forall_forall in R; destruct (R _ I) as [ty D].
    revert D; apply labelDiag_not_required.
  - destruct E as [-> | ->]; [|contradiction].
    destruct I as [I | []]; symmetry in I; revert I.
    apply labelDiag_not_emailDiag.
Qed.

Lemma required_part_kind (l : list text) :
  Forall isRequiredDiag (flat_map requiredMessages l).
Proof.
  apply Forall_forall; intros d I.
  apply in_flat_map in I; destruct I as (input & _ & I).
  pose proof (requiredMessages_kind input) as K.
  rewrite Forall_forall in K; auto.
Qed.

Lemma void_part_cases (s : text) :
  (if includes s (lit "</input>") then [voidDiag] else []) = [voidDiag]
  \/ (if includes s (lit "</input>") then [voidDiag] else []) = [].
Proof. destruct (includes s (lit "</input>")); auto. Qed.

Lemma email_part_cases (s : text) :
  (if negb (includes s (lit "type='email'")) then [emailDiag] else [])
  = [emailDiag]
  \/ (if negb (includes s (lit "type='email'")) then [emailDiag] else []) = [].
Proof. destruct (negb (includes s (lit "type='email'"))); auto. Qed.

Lemma voidDiag_iff (s : text) (errs : list text) :
  validateFormStructure s = Some errs ->
  (In voidDiag errs <-> includes s (lit "</input>") = true).
Proof.
  destruct (validateFormStructure_parts s) as (lp & -> & LP).
  intros [= <-]; split.
  - intros I; destruct (includes s (lit "</input>")); [reflexivity|].
    exfalso; simpl in I; rewrite !in_app_iff in I.
    destruct I as [I | [I | I]].
    + pose proof (labelPartOf_kind _ _ LP) as K.
      rewrite Forall_forall in K; destruct (K _ I) as [id D].
      symmetry in D; revert D; apply labelDiag_not_void.
    + pose proof (required_part_kind
                    (orEmpty (matchG requiredInputPattern s))) as K.
      rewrite Forall_forall in K; destruct (K _ I) as [ty D].
      symmetry in D; revert D; apply requiredDiag_not_void.
    + destruct (negb (includes s (lit "type='email'"))); [|contradiction].
      destruct I as [I | []]; symmetry in I; revert I; apply void_not_email.
  - intros ->; left; reflexivity.
Qed.

(** The values of single rules of the JavaScript checklist. *)
Lemma rule_noInputClosingTags (s : text) (t : tests) :
  validateAllRequirements s = Some t ->
  getRule "noInputClosingTags" t = Some (negb (includes s (lit "</input>"))).
Proof.
  unfold validateAllRequirements.
  destruct (checkLabelInputAssociation s); [|discriminate].
  cbn [bind]; intros [= <-]; reflexivity.
Qed.

Lemma rule_emailInputType (s : text) (t : tests) :
  validateAllRequirements s = Some t ->
  getRule "emailInputType" t = Some (includes s (lit "type='email'")).
Proof.
  unfold validateAllRequirements.
  destruct (checkLabelInputAssociation s); [|discriminate].
  cbn [bind]; intros [= <-]; reflexivity.
Qed.

Lemma rule_fiveInputElements (s : text) (t : tests) :
  validateAllRequirements s = Some t ->
  getRule "fiveInputElements" t
  = Some (length (scan inputPattern s 0) =? 5).
Proof.
  unfold validateAllRequirements.
  destruct (checkLabelInputAssociation s); [|discriminate].
  cbn [bind]; intros [= <-].
  rewrite orEmpty_matchG, length_map; reflexivity.
Qed.

Lemma rule_secondInputRequired (s : text) (t : tests) :
  validateAllRequirements s = Some t ->
  getRule "secondInputRequired" t = Some (includes s emailInputFixed).
Proof.
  unfold validateAllRequirements.
  destruct (checkLabelInputAssociation s); [|discriminate].
  cbn [bind]; intros [= <-]; reflexivity.
Qed.

Lemma rule_checkboxNotRequired (s : text) (t : tests) :
  validateAllRequirements s = Some t ->
  getRule "checkboxNotRequired" t
  = Some (negb (includes s
     (lit "<input type='checkbox' id='subscribe' name='newsletter' required>"))).
Proof.
  unfold validateAllRequirements.
  destruct (checkLabelInputAssociation s); [|discriminate].
  cbn [bind]; intros [= <-]; reflexivity.
Qed.

Lemma rule_submitNotRequired (s : text) (t : tests) :
  validateAllRequirements s = Some t ->
  getRule "submitNotRequired" t
  = Some (negb (includes s (lit "<input type='submit' value='Send' required>"))).
Proof.
  unfold validateAllRequirements.
  destruct (checkLabelInputAssociation s); [|discriminate].
  cbn [bind]; intros [= <-]; reflexivity.
Qed.

(** A pattern of which the text shows no trace has no match. *)
Lemma no_label_tag (s : text) :
  includes s (lit "<label for='") = false -> scan labelPattern s 0 = [].
Proof.
  intros H; destruct (scan labelPattern s 0) as [|[m g] l] eqn:E;
    [reflexivity|].
  assert (I : In (m, g) (scan labelPattern s 0)) by (rewrite E; left; reflexivity).
  destruct (scan_sound _ _ _ _ _ I) as (pre & post & -> & L).
  revert L; unfold labelPattern; cbn [Lang].
  intros (u1 & u2 & -> & -> & _).
  assert (C : includes (pre ++ (lit "<label for='" ++ u2) ++ post)
                       (lit "<label for='") = true).
  { apply includes_iff; exists pre, (u2 ++ post).
    repeat rewrite <- app_assoc; reflexivity. }
  congruence.
Qed.

Lemma no_input_id (s : text) :
  includes s (lit "id='") = false -> scan inputIdPattern s 0 = [].
Proof.
  intros H; destruct (scan inputIdPattern s 0) as [|[m g] l] eqn:E;
    [reflexivity|].
  assert (I : In (m, g) (scan inputIdPattern s 0))
    by (rewrite E; left; reflexivity).
  destruct (scan_sound _ _ _ _ _ I) as (pre & post & -> & L).
  revert L; unfold inputIdPattern; cbn [Lang].
  intros (u1 & u2 & -> & -> & u3 & u4 & -> & _ & u5 & u6 & -> & -> & _).
  assert (C : includes (pre ++ (lit "<input" ++ u3 ++ lit "id='" ++ u6)
                            ++ post) (lit "id='") = true).
  { apply includes_iff; exists (pre ++ lit "<input" ++ u3), (u6 ++ post).
    repeat rewrite <- app_assoc; reflexivity. }
  congruence.
Qed.

Lemma no_input_tag (s : text) :
  includes s (lit "<input") = false -> scan inputPattern s 0 = [].
Proof.
  intros H; destruct (scan inputPattern s 0) as [|[m g] l] eqn:E;
    [reflexivity|].
  assert (I : In (m, g) (scan inputPattern s 0))
    by (rewrite E; left; reflexivity).
  destruct (scan_sound _ _ _ _ _ I) as (pre & post & -> & L).
  revert L; unfold inputPattern; cbn [Lang].
  intros (u1 & u2 & -> & -> & _).
  assert (C : includes (pre ++ (lit "<input" ++ u2) ++ post)
                       (lit "<input") = true).
  { apply includes_iff; exists pre, (u2 ++ post).
    repeat rewrite <- app_assoc; reflexivity. }
  congruence.
Qed.

Lemma matchG_none (r : regex) (s : text) :
  scan r s 0 = [] -> matchG r s = None.
Proof. unfold matchG; intros ->; reflexivity. Qed.

(** Every matched input tag either has the text [required] or gets a
    message. *)
Lemma requiredMessages_nil (s input : text) :
  In input (orEmpty (matchG requiredInputPattern s)) ->
  (requiredMessages input = [] <-> includes input (lit "required") = true).
Proof.
  intros I; unfold requiredMessages.
  destruct (includes input (lit "required")); simpl; [tauto|].
  destruct (orEmpty_sound _ _ _ I) as (_ & _ & _ & L).
  destruct (matchGroup1_total typePattern input eq_refl
                              (requiredInput_has_type _ L)) as [ty ->].
  split; discriminate.
Qed.

Lemma required_part_nil (s : text) :
  flat_map requiredMessages (orEmpty (matchG requiredInputPattern s)) = []
  <-> Forall (fun input => includes input (lit "required") = true)
             (orEmpty (matchG requiredInputPattern s)).
Proof.
  pose proof (requiredMessages_nil s) as N.
  induction (orEmpty (matchG requiredInputPattern s)) as [|a l IH]; simpl.
  - split; auto.
  - split.
    + intros E; apply app_eq_nil in E; destruct E as [Ea El].
      constructor; [exact (proj1 (N a (or_introl eq_refl)) Ea)|].
      exact (proj1 (IH (fun i I => N i (or_intror I))) El).
    + intros F; inversion F as [|? ? Fa Fl]; subst.
      rewrite (proj2 (N a (or_introl eq_refl)) Fa); simpl.
      exact (proj2 (IH (fun i I => N i (or_intror I))) Fl).
Qed.

Lemma empty_result_conditions (s : text) :
  validateFormStructure s = Some [] ->
  includes s (lit "</input>") = false
  /\ includes s (lit "type='email'") = true
  /\ Forall (fun input => includes input (lit "required") = true)
            (orEmpty (matchG requiredInputPattern s)).
Proof.
  destruct (validateFormStructure_parts s) as (lp & -> & _).
  intros [= E].
  apply app_eq_nil in E; destruct E as [V E].
  apply app_eq_nil in E; destruct E as [_ E].
  apply app_eq_nil in E; destruct E as [R M].
  split; [destruct (includes s (lit "</input>")); [discriminate | reflexivity]|].
  split; [destruct (includes s (lit "type='email'"));
          [reflexivity | discriminate]|].
  apply required_part_nil, R.
Qed.

Lemma get_keySet (name : string) (m : Java.hashMap) :
  (exists v, Java.get name m = Some v) <-> In name (Java.keySet m).
Proof.
  induction m as [|[k v] m IH]; simpl.
  - split; [intros [v E]; discriminate | contradiction].
  - destruct (String.eqb k name) eqn:K.
    + apply String.eqb_eq in K; subst; split; eauto.
    + rewrite IH; split; [auto|].
      intros [E | I]; [|exact I].
      apply String.eqb_neq in K; contradiction.
Qed.

Lemma enumerates_inOrder : enumerates inOrder.
Proof. intros l x; unfold inOrder; tauto. Qed.

End Shared.

(* ================================================================= *)
(** ** Further properties of the validator (basic.js) *)

Section ValidatorProperties.

(** X1: none of the three methods of basic.js ever throws: the inner
    [match(...)[1]] of the validator and of the association check is
    never applied to a text the pattern misses. *)
Theorem validator_never_throws (s : text) :
  (exists errs, validateFormStructure s = Some errs)
  /\ (exists b, checkLabelInputAssociation s = Some b)
  /\ (exists t, validateAllRequirements s = Some t).
Proof.
  split; [apply validateFormStructure_total|].
  split; [apply checkLabelInputAssociation_total|].
  destruct (validateAllRequirements_total s) as (t & E & _); eauto.
Qed.

(** X2: the diagnostics come in a fixed order: the void-tag diagnostic
    (at most once), the label diagnostics, the required-attribute
    diagnostics, the email diagnostic (at most once). *)
Theorem diagnostics_in_order (s : text) :
  exists voidPart labelPart requiredPart emailPart,
    validateFormStructure s
    = Some (voidPart ++ labelPart ++ requiredPart ++ emailPart)
    /\ (voidPart = [voidDiag] \/ voidPart = [])
    /\ Forall isLabelDiag labelPart
    /\ Forall isRequiredDiag requiredPart
    /\ (emailPart = [emailDiag] \/ emailPart = []).
Proof.
  destruct (validateFormStructure_parts s) as (lp & E & LP).
  do 4 eexists; split; [exact E|].
  split; [apply void_part_cases|].
  split; [apply (labelPartOf_kind _ _ LP)|].
  split; [apply required_part_kind | apply email_part_cases].
Qed.

(** X3: the void-tag diagnostic is in the result exactly when the markup
    contains [</input>], and it is then the first diagnostic. *)
Theorem void_diagnostic_iff_closing_tag (s : text) :
  exists errs,
    validateFormStructure s = Some errs
    /\ (In voidDiag errs <-> includes s (lit "</input>") = true)
    /\ (includes s (lit "</input>") = true -> hd_error errs = Some voidDiag).
Proof.
  destruct (validateFormStructure_parts s) as (lp & E & _).
  eexists; split; [exact E|].
  split; [apply (voidDiag_iff s _ E)|].
  intros ->; reflexivity.
Qed.

(** X4: the checklist and the validator agree on the two substring
    checks they share: [noInputClosingTags] holds exactly when the void-tag
    diagnostic is absent, [emailInputType] exactly when the email
    diagnostic is absent. *)
Theorem checklist_agrees_with_diagnostics (s : text) :
  exists errs t,
    validateFormStructure s = Some errs
    /\ validateAllRequirements s = Some t
    /\ (getRule "noInputClosingTags" t = Some true <-> ~ In voidDiag errs)
    /\ (getRule "emailInputType" t = Some true <-> ~ In emailDiag errs).
Proof.
  destruct (validateFormStructure_total s) as [errs E].
  destruct (validateAllRequirements_total s) as (t & T & _).
  exists errs, t; split; [exact E|]; split; [exact T|].
  rewrite (rule_noInputClosingTags s t T), (rule_emailInputType s t T).
  rewrite (voidDiag_iff s errs E), (emailDiag_iff s errs E).
  destruct (includes s (lit "</input>"));
    destruct (includes s (lit "type='email'")); simpl;
    split; split; congruence.
Qed.

(** X5: an empty result guarantees that the markup has no [</input>],
    mentions [type='email'], and that every input tag of type text, email
    or number the validator finds contains the text [required]. *)
Theorem clean_result_guarantees (s : text) :
  validateFormStructure s = Some [] ->
  includes s (lit "</input>") = false
  /\ includes s (lit "type='email'") = true
  /\ Forall (fun input => includes input (lit "required") = true)
            (orEmpty (matchG requiredInputPattern s)).
Proof. apply empty_result_conditions. Qed.

Lemma clean_result_guarantees_reference :
  validateFormStructure generateCorrectedHTML = Some []
  /\ includes generateCorrectedHTML (lit "</input>") = false
  /\ includes generateCorrectedHTML (lit "type='email'") = true
  /\ Forall (fun input => includes input (lit "required") = true)
            (orEmpty (matchG requiredInputPattern generateCorrectedHTML)).
Proof.
  assert (H : validateFormStructure generateCorrectedHTML = Some [])
    by (vm_compute; reflexivity).
  split; [exact H | apply (clean_result_guarantees _ H)].
Defined.

(** X6: for markup without the text [<label for='], the result is empty
    exactly when the markup has no [</input>], mentions [type='email'],
    and every input tag of type text, email or number found in it
    contains the text [required]. *)
Theorem label_free_markup_clean_iff (s : text) :
  includes s (lit "<label for='") = false ->
  (validateFormStructure s = Some []
   <-> includes s (lit "</input>") = false
       /\ includes s (lit "type='email'") = true
       /\ Forall (fun input => includes input (lit "required") = true)
                 (orEmpty (matchG requiredInputPattern s))).
Proof.
  intros NL; split; [apply empty_result_conditions|].
  intros (V & M & R).
  destruct (validateFormStructure_parts s) as (lp & -> & LP).
  unfold labelPartOf in LP.
  rewrite (matchG_none _ _ (no_label_tag s NL)) in LP; subst lp.
  rewrite V, M, (proj2 (required_part_nil s) R); reflexivity.
Qed.

Lemma label_free_markup_clean_iff_email_input :
  includes (lit "<input type='email' name='email' required>")
           (lit "<label for='") = false
  /\ validateFormStructure (lit "<input type='email' name='email' required>")
     = Some [].
Proof.
  assert (H : includes (lit "<input type='email' name='email' required>")
                       (lit "<label for='") = false)
    by (vm_compute; reflexivity).
  split; [exact H|].
  apply (proj2 (label_free_markup_clean_iff _ H)).
  repeat split; vm_compute; repeat constructor.
Defined.

(** X7: a label diagnostic only ever names an identifier taken from the
    markup: a non-empty text without double quote that stands there
    between [for='] and the closing quote. *)
Theorem label_diagnostic_names_markup_target (s : text) :
  exists errs,
    validateFormStructure s = Some errs
    /\ forall id, In (labelDiag id) errs ->
         id <> [] /\ ~ In dquote id
         /\ includes s (lit "for='" ++ id ++ lit "'") = true.
Proof.
  destruct (validateFormStructure_parts s) as (lp & E & LP).
  eexists; split; [exact E|]; intros id I.
  apply (labelPartOf_source s lp id LP).
  revert I; apply in_parts_label;
    [apply void_part_cases | apply required_part_kind
     | apply email_part_cases].
Qed.

(** X8: a required-attribute diagnostic only ever names a type taken
    from an input tag of the markup that lacks the text [required]. *)
Theorem required_diagnostic_names_markup_type (s : text) :
  exists errs,
    validateFormStructure s = Some errs
    /\ forall ty, In (requiredDiag ty) errs ->
         exists pre tag post,
           s = pre ++ tag ++ post
           /\ startsWith tag (lit "<input") = true
           /\ includes tag (lit "required") = false
           /\ includes tag (lit "type='" ++ ty ++ lit "'") = true.
Proof.
  destruct (validateFormStructure_parts s) as (lp & E & LP).
  eexists; split; [exact E|]; intros ty I.
  rewrite !in_app_iff in I; destruct I as [I | [I | [I | I]]].
  - exfalso; destruct (includes s (lit "</input>")); [|contradiction].
    destruct I as [I | []]; symmetry in I; revert I.
    apply requiredDiag_not_void.
  - exfalso; pose proof (labelPartOf_kind _ _ LP) as K.
    rewrite Forall_forall in K; destruct (K _ I) as [id D].
    symmetry in D; revert D; apply labelDiag_not_required.
  - apply in_flat_map in I; destruct I as (tag & It & I).
    destruct (orEmpty_sound _ _ _ It) as (pre & post & -> & L).
    exists pre, tag, post; split; [reflexivity|].
    split.
    { revert L; unfold requiredInputPattern; cbn [Lang].
      intros (u1 & u2 & -> & -> & _); apply startsWith_app. }
    unfold requiredMessages in I.
    destruct (includes tag (lit "required")); [contradiction|].
    split; [reflexivity|]; simpl in I.
    destruct (matchGroup1 typePattern tag) as [ty'|] eqn:G; [|contradiction].
    destruct I as [I | []]; apply requiredDiag_inj in I; subst ty'.
    apply matchGroup1_sound in G; destruct G as (_ & pre' & post' & ->).
    apply includes_iff; exists pre', post'.
    repeat rewrite <- app_assoc; reflexivity.
  - exfalso; destruct (negb (includes s (lit "type='email'")));
      [|contradiction].
    destruct I as [I | []]; revert I.
    apply not_eq_sym, requiredDiag_not_email; exists ty; reflexivity.
Qed.

(** X9: when the text [id='] occurs nowhere in the markup, the result
    has no label diagnostic, whatever labels the markup has: the
    association check is skipped as a whole. *)
Theorem no_ids_no_label_diagnostics (s : text) :
  includes s (lit "id='") = false ->
  exists errs,
    validateFormStructure s = Some errs
    /\ forall id, ~ In (labelDiag id) errs.
Proof.
  intros NI.
  destruct (validateFormStructure_parts s) as (lp & E & LP).
  eexists; split; [exact E|]; intros id I.
  apply in_parts_label in I;
    [| apply void_part_cases | apply required_part_kind
     | apply email_part_cases].
  unfold labelPartOf in LP.
  rewrite (matchG_none _ _ (no_input_id s NI)) in LP.
  destruct (matchG labelPattern s); subst lp; contradiction.
Qed.

Lemma no_ids_no_label_diagnostics_orphan :
  includes labelWithoutInputId (lit "id='") = false
  /\ exists errs,
       validateFormStructure labelWithoutInputId = Some errs
       /\ forall id, ~ In (labelDiag id) errs.
Proof.
  assert (H : includes labelWithoutInputId (lit "id='") = false)
    by (vm_compute; reflexivity).
  split; [exact H | apply (no_ids_no_label_diagnostics _ H)].
Defined.

(** X10: for markup in which the text [<input] occurs nowhere, the
    checklist is returned and its [fiveInputElements] rule is [false]. *)
Theorem no_input_tags_fails_count (s : text) :
  includes s (lit "<input") = false ->
  exists t,
    validateAllRequirements s = Some t
    /\ getRule "fiveInputElements" t = Some false.
Proof.
  intros NI.
  destruct (validateAllRequirements_total s) as (t & T & _).
  exists t; split; [exact T|].
  rewrite (rule_fiveInputElements s t T), (no_input_tag s NI); reflexivity.
Qed.

Lemma no_input_tags_fails_count_empty :
  includes [] (lit "<input") = false
  /\ exists t,
       validateAllRequirements [] = Some t
       /\ getRule "fiveInputElements" t = Some false.
Proof.
  assert (H : includes [] (lit "<input") = false) by reflexivity.
  split; [exact H | apply (no_input_tags_fails_count _ H)].
Defined.

(** X11: in every checklist, [secondInputRequired] implies
    [emailInputType]: the exact email input it looks for has
    [type='email']. *)
Theorem email_input_rule_implied (s : text) (t : tests) :
  validateAllRequirements s = Some t ->
  getRule "secondInputRequired" t = Some true ->
  getRule "emailInputType" t = Some true.
Proof.
  intros T; rewrite (rule_secondInputRequired s t T), (rule_emailInputType s t T).
  intros [= I]; f_equal.
  apply includes_iff in I; destruct I as (pre & post & ->).
  apply includes_iff.
  exists (pre ++ lit "<input "),
         (lit " id='emailAddress' name='email' required>" ++ post).
  replace emailInputFixed
    with (lit "<input " ++ lit "type='email'"
          ++ lit " id='emailAddress' name='email' required>")
    by reflexivity.
  repeat rewrite <- app_assoc; reflexivity.
Qed.

Lemma email_input_rule_implied_reference :
  validateAllRequirements generateCorrectedHTML
  = Some (map (fun name => (name, true)) ruleNames)
  /\ getRule "emailInputType" (map (fun name => (name, true)) ruleNames)
     = Some true.
Proof.
  assert (H : validateAllRequirements generateCorrectedHTML
              = Some (map (fun name => (name, true)) ruleNames))
    by (vm_compute; reflexivity).
  split; [exact H|].
  apply (email_input_rule_implied _ _ H); reflexivity.
Defined.

End ValidatorProperties.

(* ================================================================= *)
(** ** Further properties of the Java copy *)

Section JavaProperties.

(** X12: the Java validator, which has no guard around the association
    check, names every label target that no input id equals, however its
    hash set enumerates the targets. *)
Theorem java_validator_reports_orphans
        (enumerate : list text -> list text) (s id : text) :
  enumerates enumerate ->
  In id (Java.collectGroup1 labelPattern s) ->
  ~ In id (Java.collectGroup1 inputIdPattern s) ->
  In (labelDiag id) (Java.validateFormStructure enumerate s).
Proof. intros H; apply java_orphans_reported; exact H. Qed.

Lemma java_validator_reports_orphans_fullName :
  enumerates inOrder
  /\ In (lit "fullName") (Java.collectGroup1 labelPattern labelWithoutInputId)
  /\ ~ In (lit "fullName")
          (Java.collectGroup1 inputIdPattern labelWithoutInputId)
  /\ In (labelDiag (lit "fullName"))
        (Java.validateFormStructure inOrder labelWithoutInputId).
Proof.
  assert (H1 : In (lit "fullName")
                  (Java.collectGroup1 labelPattern labelWithoutInputId))
    by (vm_compute; left; reflexivity).
  assert (H2 : ~ In (lit "fullName")
                    (Java.collectGroup1 inputIdPattern labelWithoutInputId))
    by (vm_compute; intros []).
  split; [exact enumerates_inOrder|].
  split; [exact H1|]; split; [exact H2|].
  apply (java_validator_reports_orphans inOrder _ _ enumerates_inOrder H1 H2).
Defined.

(** X13: the two copies of the validator differ at most in their label
    diagnostics: the void-tag part, the required-attribute part and the
    email part of their results are the same, in the same places. *)
Theorem copies_differ_only_in_label_diagnostics
        (enumerate : list text -> list text) (s : text) :
  exists voidPart labelsJS labelsJava requiredPart emailPart,
    validateFormStructure s
    = Some (voidPart ++ labelsJS ++ requiredPart ++ emailPart)
    /\ Java.validateFormStructure enumerate s
       = voidPart ++ labelsJava ++ requiredPart ++ emailPart
    /\ Forall isLabelDiag labelsJS
    /\ Forall isLabelDiag labelsJava.
Proof.
  destruct (validateFormStructure_parts s) as (lp & E & LP).
  do 5 eexists; split; [exact E|].
  split; [apply java_parts|].
  split; [apply (labelPartOf_kind _ _ LP)|].
  apply Forall_forall; intros d I.
  apply in_map_iff in I; destruct I as (id & <- & _); exists id; reflexivity.
Qed.

(** X14: on markup without the text [<label for='] the two copies return
    the same diagnostics. *)
Theorem copies_agree_without_labels
        (enumerate : list text -> list text) (s : text) :
  enumerates enumerate ->
  includes s (lit "<label for='") = false ->
  validateFormStructure s = Some (Java.validateFormStructure enumerate s).
Proof.
  intros H NL.
  destruct (validateFormStructure_parts s) as (lp & -> & LP).
  unfold labelPartOf in LP.
  rewrite (matchG_none _ _ (no_label_tag s NL)) in LP; subst lp.
  rewrite java_parts; unfold Java.collectGroup1 at 2.
  rewrite (no_label_tag s NL); simpl map at 2.
  rewrite (enumerate_nil enumerate H); reflexivity.
Qed.

Lemma copies_agree_without_labels_sample :
  enumerates inOrder
  /\ includes originalHTML (lit "<label for='") = false
  /\ validateFormStructure originalHTML
     = Some (Java.validateFormStructure inOrder originalHTML).
Proof.
  assert (H : includes originalHTML (lit "<label for='") = false)
    by (vm_compute; reflexivity).
  split; [exact enumerates_inOrder|]; split; [exact H|].
  apply (copies_agree_without_labels inOrder _ enumerates_inOrder H).
Defined.

(** X15: whatever the input, the Java checklist binds exactly its
    fourteen rule names. *)
Theorem java_checklist_binds_rule_names (s : text) (name : string) :
  (exists v, Java.get name (Java.validateAllRequirements s) = Some v)
  <-> In name Java.ruleNames.
Proof.
  rewrite get_keySet.
  change (Java.keySet (Java.validateAllRequirements s)) with Java.ruleNames.
  tauto.
Qed.

(** X16: the two copies of the checklist give the same value to each of
    the eleven rules they compute the same way (closing tags, the two
    counts, the seven exact fragments, the email type). *)
Theorem copies_agree_on_shared_rules (s : text) :
  exists t,
    validateAllRequirements s = Some t
    /\ Forall (fun names =>
                 getRule (fst names) t
                 = Java.get (snd names) (Java.validateAllRequirements s))
              sharedRules.
Proof.
  destruct (checkLabelInputAssociation_total s) as [b B].
  unfold validateAllRequirements; rewrite B; cbn [bind].
  eexists; split; [reflexivity|].
  rewrite !orEmpty_matchG, !length_map.
  unfold sharedRules; repeat constructor.
Qed.

(** X17: the Java rules [checkbox_not_required] and
    [submit_not_required] are at least as strict as their JavaScript
    namesakes: when the Java rule holds, so does the JavaScript one. *)
Theorem java_not_required_rules_stricter (s : text) :
  exists t,
    validateAllRequirements s = Some t
    /\ (Java.get "checkbox_not_required" (Java.validateAllRequirements s)
        = Some true ->
        getRule "checkboxNotRequired" t = Some true)
    /\ (Java.get "submit_not_required" (Java.validateAllRequirements s)
        = Some true ->
        getRule "submitNotRequired" t = Some true).
Proof.
  destruct (validateAllRequirements_total s) as (t & T & _).
  exists t; split; [exact T|].
  rewrite (rule_checkboxNotRequired s t T), (rule_submitNotRequired s t T).
  change (Java.get "checkbox_not_required" (Java.validateAllRequirements s))
    with (Some (negb (Java.find Java.checkboxRequiredPattern s))).
  change (Java.get "submit_not_required" (Java.validateAllRequirements s))
    with (Some (negb (Java.find Java.submitRequiredPattern s))).
  split; intros [= F]; f_equal; apply negb_true_iff in F;
    apply negb_true_iff; apply not_true_iff_false; intros I;
    apply includes_iff in I; destruct I as (pre & post & ->);
    unfold Java.find in F.
  - destruct (search_complete Java.checkboxRequiredPattern
                (lit "<input type='checkbox' id='subscribe' name='newsletter' required>")
                post pre) as [m E]; [|rewrite E in F; discriminate].
    exists (lit "<input type='checkbox'"); eexists; split; [reflexivity|].
    split; [reflexivity|].
    exists (lit " id='subscribe' name='newsletter' "); eexists.
    split; [reflexivity|]; split; [repeat constructor|].
    exists (lit "required"), (lit ">"); split; [reflexivity|].
    split; [reflexivity|].
    exists [], (lit ">"); repeat split; constructor.
  - destruct (search_complete Java.submitRequiredPattern
                (lit "<input type='submit' value='Send' required>")
                post pre) as [m E]; [|rewrite E in F; discriminate].
    exists (lit "<input type='submit'"); eexists; split; [reflexivity|].
    split; [reflexivity|].
    exists (lit " value='Send' "); eexists.
    split; [reflexivity|]; split; [repeat constructor|].
    exists (lit "required"), (lit ">"); split; [reflexivity|].
    split; [reflexivity|].
    exists [], (lit ">"); repeat split; constructor.
Qed.

End JavaProperties.

(* ================================================================= *)
(** ** Further properties of the fixer *)

Section FixerProperties.

(** X18: [fixFormHTML] fails in one way only.  The closing-tag, email
    and name rewrites always succeed; the call then raises
    [IllegalArgumentException] exactly when the amount pattern matches in
    the text they leave, and returns a text otherwise.  It never raises
    [IndexOutOfBoundsException]. *)
Theorem fixer_fails_only_on_amount (s : text) :
  exists t1 t2 t3,
    Java.replaceAll s (Lit closingTag) [] = inr t1
    /\ Java.replaceAll t1 (Lit emailInput) emailInputFixed = inr t2
    /\ Java.replaceAll t2 (fst nameRewrite) (snd nameRewrite) = inr t3
    /\ (scan (fst amountRewrite) t3 0 <> [] ->
        Java.fixFormHTML s = inl Java.IllegalArgumentException)
    /\ (scan (fst amountRewrite) t3 0 = [] ->
        exists fixed, Java.fixFormHTML s = inr fixed)
    /\ Java.fixFormHTML s <> inl Java.IndexOutOfBoundsException.
Proof.
  destruct (replaceFrom_const (Lit closingTag) [] [] expand_empty s 0)
    as (t1 & E1 & _).
  destruct (replaceFrom_const (Lit emailInput) _ _ expand_email t1 0)
    as (t2 & E2 & _).
  destruct (replaceFrom_const (fst nameRewrite) _ _ expand_name t2 0)
    as (t3 & E3 & _).
  destruct newsletter_const as [out X].
  destruct (replaceFrom_const (fst newsletterRewrite) _ _ X t3 0)
    as (t5 & E5 & _).
  fold (Java.replaceAll s (Lit closingTag) []) in E1.
  fold (Java.replaceAll t1 (Lit emailInput) emailInputFixed) in E2.
  fold (Java.replaceAll t2 (fst nameRewrite) (snd nameRewrite)) in E3.
  fold (Java.replaceAll t3 (fst newsletterRewrite) (snd newsletterRewrite))
    in E5.
  exists t1, t2, t3; repeat (split; [assumption|]).
  rewrite fixFormHTML_steps, E1; cbn [Java.bindR].
  rewrite E2; cbn [Java.bindR]; rewrite E3; cbn [Java.bindR].
  assert (A : scan (fst amountRewrite) t3 0 <> [] ->
              Java.replaceAll t3 (fst amountRewrite) (snd amountRewrite)
              = inl Java.IllegalArgumentException)
    by apply amount_rewrite_throws.
  assert (B : scan (fst amountRewrite) t3 0 = [] ->
              Java.replaceAll t3 (fst amountRewrite) (snd amountRewrite)
              = inr t3)
    by apply replaceAll_no_match.
  split; [intros N; rewrite (A N); reflexivity|].
  split; [intros N; rewrite (B N); cbn [Java.bindR]; eauto|].
  destruct (scan (fst amountRewrite) t3 0) as [|f l] eqn:S.
  - rewrite (B eq_refl); cbn [Java.bindR]; rewrite E5; discriminate.
  - rewrite A; [discriminate | discriminate].
Qed.

(** X19: markup in which none of the five patterns of [fixFormHTML]
    matches is returned as it is. *)
Theorem fixer_leaves_unmatched_markup (s : text) :
  scan (Lit closingTag) s 0 = [] ->
  scan (Lit emailInput) s 0 = [] ->
  scan (fst nameRewrite) s 0 = [] ->
  scan (fst amountRewrite) s 0 = [] ->
  scan (fst newsletterRewrite) s 0 = [] ->
  Java.fixFormHTML s = inr s.
Proof.
  intros H1 H2 H3 H4 H5; rewrite fixFormHTML_steps.
  rewrite (replaceAll_no_match _ _ _ H1); cbn [Java.bindR].
  rewrite (replaceAll_no_match _ _ _ H2); cbn [Java.bindR].
  rewrite (replaceAll_no_match _ _ _ H3); cbn [Java.bindR].
  rewrite (replaceAll_no_match _ _ _ H4); cbn [Java.bindR].
  apply (replaceAll_no_match _ _ _ H5).
Qed.

Lemma fixer_leaves_unmatched_markup_reference :
  Java.fixFormHTML Java.generateCorrectedHTML
  = inr Java.generateCorrectedHTML.
Proof.
  apply (fixer_leaves_unmatched_markup Java.generateCorrectedHTML);
    vm_compute; reflexivity.
Defined.

(** X20: wherever the name pattern matches, the name rewrite puts the
    letter [n] and four blanks, not a line break, between the new label
    and the new input: the backslash of the replacement string only makes
    the [n] after it literal. *)
Theorem name_rewrite_inserts_letter_n (s : text) :
  scan (fst nameRewrite) s 0 <> [] ->
  exists t,
    Java.replaceAll s (fst nameRewrite) (snd nameRewrite) = inr t
    /\ includes t nameInserted = true
    /\ ~ In newline nameInserted.
Proof.
  intros N.
  destruct (replaceFrom_const (fst nameRewrite) _ _ expand_name s 0)
    as (t & E & I).
  exists t; split; [exact E|]; split; [apply I, N|].
  intros C; apply (in_map (Ascii.eqb newline)) in C.
  rewrite Ascii.eqb_refl in C.
  vm_compute in C; repeat (destruct C as [C | C]; [discriminate|]).
  exact C.
Qed.

Lemma name_rewrite_inserts_letter_n_field :
  scan (fst nameRewrite)
       (lit "Full Name: <input type='text' name='name'>") 0 <> []
  /\ exists t,
       Java.replaceAll (lit "Full Name: <input type='text' name='name'>")
                       (fst nameRewrite) (snd nameRewrite) = inr t
       /\ includes t nameInserted = true
       /\ ~ In newline nameInserted.
Proof.
  assert (H : scan (fst nameRewrite)
                   (lit "Full Name: <input type='text' name='name'>") 0 <> [])
    by (vm_compute; discriminate).
  split; [exact H | apply (name_rewrite_inserts_letter_n _ H)].
Defined.

(** X21: the closing-tag rewrite never fails, never lengthens the text,
    and changes it exactly when the text contains [</input>]. *)
Theorem closing_tag_rewrite_changes_iff_present (s : text) :
  exists t,
    Java.replaceAll s (Lit closingTag) [] = inr t
    /\ length t <= length s
    /\ (t = s <-> includes s closingTag = false).
Proof.
  destruct (replaceFrom_erase (Lit closingTag)) with (s := s) (skip := 0)
    as (t & E & B & S).
  { apply literal_match_nonempty; discriminate. }
  exists t; split; [exact E|]; split; [lia|]; split.
  - intros ->; destruct (includes s closingTag) eqn:I; [|reflexivity].
    specialize (S (scan_literal_some _ _ I)); lia.
  - intros I.
    pose proof (replaceAll_no_match s (Lit closingTag) []
                                    (scan_literal_none _ _ I)) as R.
    unfold Java.replaceAll in R; congruence.
Qed.

End FixerProperties.
